(** * Candy-store tooling: the description generator and the handle service

    Shallow embedding of
      - tools/candy-description-generator/generate.py, config.py and
        prompt_template.py (the resumable batch pipeline), and
      - shopify-handles-generator/app.py (the handle service),
    followed by the properties proved about them.

    Modelling conventions.
      - A Python [str] is a [string]; the character classes used by
        [str.strip], [str.lower] and [str.isdigit] are the ASCII ones.
      - A [dict] with string keys is an insertion-ordered association list
        with unique keys ([Py.set] keeps both properties).
      - A CSV file is the list of its records, each a list of cells; the
        quoting done by the [csv] module is not modelled.  On a rectangular
        file (one cell per header field in every record, which is what
        [csv.DictWriter] writes) [csv.DictReader] yields string-valued rows,
        and [Csv.DictReader] and [Generate.main] describe the code on such
        files: the properties of a run assume [Spec.rectangular] of every
        file the run reads.  [Csv.DictReader_any] is the reader on any
        file, with the [None] values of a short record; on those
        [load_completed_skus] can raise, see [Generate.load_completed_skus_any].
      - The remote model is a function from the request to what the call
        returns or raises; [time.sleep] and the calls are recorded in a
        trace. *)

From Stdlib Require Import Ascii String ZArith Lia DecimalString.
From stdpp Require Import base option list strings gmap.

Local Open Scope string_scope.
Local Open Scope list_scope.
Local Open Scope nat_scope.

#[local] Set Warnings "-register-all".

(* ===================================================================== *)
(** ** Python strings and dictionaries                                    *)
(* ===================================================================== *)

Module Py.

Definition chr (n : nat) : ascii := ascii_of_nat n.

(** "\n" *)
Definition nl : string := String (chr 10) "".

(** [str.isspace] on one ASCII character: tab, line feed, vertical tab,
    form feed, carriage return, the four separators 0x1c-0x1f, space. *)
Definition isspace (c : ascii) : bool :=
  let n := nat_of_ascii c in
  ((9 <=? n) && (n <=? 13)) || ((28 <=? n) && (n <=? 32)).

(** [str.isdigit] on one ASCII character. *)
Definition isdigit (c : ascii) : bool :=
  let n := nat_of_ascii c in (48 <=? n) && (n <=? 57).

Definition lower_char (c : ascii) : ascii :=
  let n := nat_of_ascii c in
  if (65 <=? n) && (n <=? 90) then ascii_of_nat (n + 32) else c.

Fixpoint lower (s : string) : string :=
  match s with
  | EmptyString => EmptyString
  | String c s' => String (lower_char c) (lower s')
  end.

Fixpoint lstrip (s : string) : string :=
  match s with
  | EmptyString => EmptyString
  | String c s' => if isspace c then lstrip s' else s
  end.

Fixpoint rstrip (s : string) : string :=
  match s with
  | EmptyString => EmptyString
  | String c s' =>
      match rstrip s' with
      | EmptyString => if isspace c then EmptyString else String c EmptyString
      | r => String c r
      end
  end.

(** [s.strip()] *)
Definition strip (s : string) : string := rstrip (lstrip s).

(** Truth value of a string: [bool(s)]. *)
Definition truthy (s : string) : bool :=
  match s with EmptyString => false | _ => true end.

(** [s.startswith(p)] *)
Definition startswith (s p : string) : bool := String.prefix p s.

(** [s.endswith(p)] *)
Definition endswith (s p : string) : bool :=
  String.prefix (String.rev p) (String.rev s).

(** [s.split(sep)] for a one-character separator. *)
Fixpoint split (sep : ascii) (s : string) : list string :=
  match s with
  | EmptyString => [EmptyString]
  | String c s' =>
      if Ascii.eqb c sep then EmptyString :: split sep s'
      else match split sep s' with
           | [] => [String c EmptyString]
           | w :: ws => String c w :: ws
           end
  end.

(** [sep.join(parts)] *)
Fixpoint join (sep : string) (parts : list string) : string :=
  match parts with
  | [] => EmptyString
  | [p] => p
  | p :: ps => p +:+ sep +:+ join sep ps
  end.

(** A [dict] whose keys and values are strings. *)
Definition dict : Type := list (string * string).

Fixpoint get (d : dict) (k : string) : option string :=
  match d with
  | [] => None
  | (k', v) :: d' => if String.eqb k' k then Some v else get d' k
  end.

(** [d.get(k, dflt)] *)
Definition get_default (d : dict) (k dflt : string) : string :=
  default dflt (get d k).

(** [d.get(k) or ""]: a missing key gives [None], which is falsy. *)
Definition get_or_empty (d : dict) (k : string) : string :=
  match get d k with
  | Some v => if truthy v then v else ""
  | None => ""
  end.

(** [d[k] = v]: an existing key keeps its position, a new one goes last. *)
Fixpoint set (d : dict) (k v : string) : dict :=
  match d with
  | [] => [(k, v)]
  | (k', v') :: d' =>
      if String.eqb k' k then (k', v) :: d' else (k', v') :: set d' k v
  end.

(** [list(d.keys())] *)
Definition keys (d : dict) : list string := d.*1.

(** [dict(pairs)]: later pairs overwrite earlier ones. *)
Definition of_pairs (pairs : list (string * string)) : dict :=
  foldl (λ d kv, set d kv.1 kv.2) [] pairs.

(** [k in l] for a list of strings. *)
Definition contains (l : list string) (k : string) : bool :=
  existsb (String.eqb k) l.

End Py.

(* ===================================================================== *)
(** ** The csv module, as far as the tools use it                         *)
(* ===================================================================== *)

Module Csv.

Definition record : Type := list string.
Definition csv_file : Type := list record.
Definition row : Type := Py.dict.

(** [csv.DictReader(f)] on a rectangular file: the first record names the
    fields, blank records are skipped, every other record is zipped with the
    field names.  What the reader does with a record shorter or longer than
    the header is in [DictReader_any]. *)
Definition DictReader (f : csv_file) : list row :=
  match f with
  | [] => []
  | fieldnames :: records =>
      (λ rec, Py.of_pairs (zip fieldnames rec))
        <$> filter (λ rec, rec ≠ []) records
  end.

(** [DictWriter(f, fieldnames).writerow(row)] for a row whose keys are all
    among the field names: one cell per field name, the empty string for a
    key the row lacks.  A key outside the field names makes the writer
    raise, see [writerow_any]. *)
Definition writerow (fieldnames : list string) (r : row) : record :=
  (λ k, Py.get_default r k "") <$> fieldnames.

(** [DictWriter(f, fieldnames).writerow(row)] for any row of strings: with
    the default [extrasaction='raise'] a key outside the field names raises
    [ValueError], which is [None] here. *)
Definition writerow_any (fieldnames : list string) (r : row) : option record :=
  if forallb (Py.contains fieldnames) (Py.keys r)
  then Some (writerow fieldnames r) else None.

(** A row as [csv.DictReader] yields it for any record: a value is a cell's
    text or Python's [None], and [restkey] is the list kept under the key
    [None], empty when that key is absent. *)
Record any_row : Type := {
  fields : list (string * option string);
  restkey : list string
}.

(** [d[k] = v] on such a row. *)
Fixpoint set_value (d : list (string * option string)) (k : string)
    (v : option string) : list (string * option string) :=
  match d with
  | [] => [(k, v)]
  | (k', v') :: d' =>
      if String.eqb k' k then (k', v) :: d' else (k', v') :: set_value d' k v
  end.

(** [d.get(k, dflt)] on such a row: the default for an absent key only. *)
Fixpoint get_value (d : list (string * option string)) (k dflt : string)
  : option string :=
  match d with
  | [] => Some dflt
  | (k', v) :: d' => if String.eqb k' k then v else get_value d' k dflt
  end.

(** [csv.DictReader(f)] on any file: [d = dict(zip(fieldnames, row))]; the
    cells of a record longer than the header go under the key [None]; the
    fields a shorter record does not reach are set to [None]. *)
Definition DictReader_any (f : csv_file) : list any_row :=
  match f with
  | [] => []
  | fieldnames :: records =>
      (λ rec,
         let d := foldl (λ d kv, set_value d kv.1 (Some kv.2)) []
                        (zip fieldnames rec) in
         {| fields := foldl (λ d k, set_value d k None) d
                            (drop (length rec) fieldnames);
            restkey := drop (length fieldnames) rec |})
        <$> filter (λ rec, rec ≠ []) records
  end.

End Csv.

(* ===================================================================== *)
(** ** tools/candy-description-generator/config.py                        *)
(* ===================================================================== *)

Module Config.
Definition API_MODEL : string := "claude-sonnet-4-20250514".
Definition API_MAX_TOKENS : nat := 300.
Definition REQUESTS_PER_SECOND : nat := 1.
Definition SAVE_EVERY_N : nat := 10.
End Config.

(* ===================================================================== *)
(** ** tools/candy-description-generator/prompt_template.py               *)
(* ===================================================================== *)

Module PromptTemplate.

(** [if row.get(key):] *)
Definition present (row : Py.dict) (key : string) : bool :=
  match Py.get row key with
  | Some v => Py.truthy v
  | None => false
  end.

(** [row[key]], read only under [present row key]. *)
Definition item (row : Py.dict) (key : string) : string :=
  Py.get_default row key "".

(** [str(i)] for a natural number. *)
Definition str_nat (i : nat) : string := NilZero.string_of_uint (Nat.to_uint i).

Definition INSTRUCTION : string :=
  Py.nl +:+ "Write a product description following the rules. Return only the description text, nothing else.".

Definition build_user_prompt (row : Py.dict) : string :=
  let parts := ["Product title: " +:+ Py.get_default row "Title" ""] in
  let parts :=
    if present row "Vendor"
    then parts ++ ["Brand/Vendor: " +:+ item row "Vendor"] else parts in
  let parts :=
    if present row "description"
    then parts ++ ["Current description: " +:+ item row "description"] else parts in
  let parts :=
    if present row "units_01"
    then parts ++ ["Units/sizing: " +:+ item row "units_01"] else parts in
  let parts :=
    if present row "certifications"
    then parts ++ ["Certifications: " +:+ item row "certifications"] else parts in
  let parts :=
    if present row "nutritional_claims"
    then parts ++ ["Nutritional claims: " +:+ item row "nutritional_claims"] else parts in
  let parts :=
    if present row "occasion"
    then parts ++ ["Occasion: " +:+ item row "occasion"] else parts in
  let minis :=
    foldl (λ minis i,
             let key := "description_mini_0" +:+ str_nat i in
             if present row key then minis ++ [item row key] else minis)
          [] (seq 1 4) in
  let parts :=
    match minis with
    | [] => parts
    | _ => parts ++ ["Additional details: " +:+ Py.join " | " minis]
    end in
  let parts := parts ++ [INSTRUCTION] in
  Py.join Py.nl parts.

End PromptTemplate.

(* ===================================================================== *)
(** ** tools/candy-description-generator/generate.py                      *)
(* ===================================================================== *)

Module Generate.
Import Csv.

(** One part of the user message sent to the model. *)
Inductive content_part : Type :=
| ImagePart (url : string)
| TextPart (text : string).

(** What [client.messages.create] does: it returns a message, given by the
    texts of its content blocks, or raises [anthropic.APIError], or raises
    some other [Exception]; the string is [str(e)]. *)
Inductive api_result : Type :=
| Message (content : list string)
| RaiseAPIError (e : string)
| RaiseException (e : string).

(** The remote model during one run: its answer to the call made for the
    i-th input row. *)
Definition client : Type := nat → list content_part → api_result.

(** Result of [generate_description]: the text it returns or what it raises. *)
Inductive generated : Type :=
| Returned (description : string)
| APIError (e : string)
| OtherError (e : string).

Inductive event : Type :=
| EvCall (i : nat) (content : list content_part)
| EvSleep.

Definition load_input_csv (f : csv_file) : list row := DictReader f.

(** The body of the loop in [load_completed_skus]. *)
Definition add_if_completed (completed : gset string) (r : row) : gset string :=
  let sku := Py.strip (Py.get_default r "Variant SKU" "") in
  if Py.truthy sku
     && Py.truthy (Py.strip (Py.get_default r "new_description" ""))
  then completed ∪ {[sku]} else completed.

(** [load_completed_skus(filepath)]; [None] is a path that does not exist. *)
Definition load_completed_skus (output : option csv_file) : gset string :=
  match output with
  | None => ∅
  | Some f => foldl add_if_completed ∅ (DictReader f)
  end.

(** The body of the loop in [load_completed_skus] on a row of any file;
    [None] is the [AttributeError] that [.strip()] raises on [None].  The
    "new_description" is looked at only for a non-blank key. *)
Definition add_if_completed_any (completed : gset string) (r : any_row)
  : option (gset string) :=
  match get_value (fields r) "Variant SKU" "" with
  | None => None
  | Some s =>
      let sku := Py.strip s in
      if Py.truthy sku then
        match get_value (fields r) "new_description" "" with
        | None => None
        | Some d =>
            Some (if Py.truthy (Py.strip d) then completed ∪ {[sku]}
                  else completed)
        end
      else Some completed
  end.

(** [load_completed_skus(filepath)] on any file: the set it returns, or
    [None] when it raises. *)
Definition load_completed_skus_any (output : option csv_file)
  : option (gset string) :=
  match output with
  | None => Some ∅
  | Some f =>
      foldl (λ acc r, acc ≫= λ completed, add_if_completed_any completed r)
            (Some ∅) (DictReader_any f)
  end.

(** The [content] list built by [generate_description]. *)
Definition request_content (r : row) : list content_part :=
  let user_text := PromptTemplate.build_user_prompt r in
  let image_url := Py.strip (Py.get_or_empty r "Image Src") in
  (if Py.truthy image_url then [ImagePart image_url] else [])
    ++ [TextPart user_text].

(** [generate_description(client, row)] for the row at index [i];
    [message.content[0]] raises [IndexError] on an empty content list. *)
Definition generate_description (c : client) (i : nat) (r : row) : generated :=
  match c i (request_content r) with
  | Message (text :: _) => Returned (Py.strip text)
  | Message [] => OtherError "list index out of range"
  | RaiseAPIError e => APIError e
  | RaiseException e => OtherError e
  end.

(** [init_output_csv(filepath, fieldnames)] *)
Definition init_output_csv (output : option csv_file) (fieldnames : list string)
  : option csv_file :=
  match output with
  | None => Some [fieldnames]
  | Some f => Some f
  end.

(** [append_rows(filepath, fieldnames, rows)]; mode "a" creates the file. *)
Definition append_rows (output : option csv_file) (fieldnames : list string)
    (rows : list row) : option csv_file :=
  Some (default [] output ++ (writerow fieldnames <$> rows)).

(** [rows[:n]], also for a negative [n]. *)
Definition slice_to {A} (l : list A) (n : Z) : list A :=
  if (0 <=? n)%Z then take (Z.to_nat n) l
  else take (length l - Z.to_nat (- n)) l.

Record args : Type := {
  arg_limit : option Z;
  arg_resume : bool
}.

(** The variables of the loop in [main], the output file and the trace. *)
Record state : Type := {
  out : option csv_file;
  buffer : list row;
  processed : nat;
  skipped : nat;
  errors : nat;
  trace : list event
}.

Inductive outcome : Type :=
| Exit (code : nat)
| Done (st : state).

(** The rows [main] works on: the input, cut by [--limit]. *)
Definition limited_rows (a : args) (input : csv_file) : list row :=
  let rows := load_input_csv input in
  match arg_limit a with
  | Some n => if (n =? 0)%Z then rows else slice_to rows n
  | None => rows
  end.

(** "Determine output fieldnames". *)
Definition output_fieldnames (rows : list row) : list string :=
  let fieldnames := match rows with r :: _ => Py.keys r | [] => [] end in
  let fieldnames :=
    if Py.contains fieldnames "new_description" then fieldnames
    else fieldnames ++ ["new_description"] in
  if Py.contains fieldnames "generation_status" then fieldnames
  else fieldnames ++ ["generation_status"].

(** The row as the loop body leaves it after the [try] statement. *)
Definition augment (g : generated) (r : row) : row :=
  match g with
  | Returned description =>
      Py.set (Py.set r "new_description" description) "generation_status" "success"
  | APIError e =>
      Py.set (Py.set r "new_description" "") "generation_status" ("error: " +:+ e)
  | OtherError e =>
      Py.set (Py.set r "new_description" "") "generation_status" ("error: " +:+ e)
  end.

(** One iteration of [for i, row in enumerate(rows)]. *)
Definition step (fieldnames : list string) (completed_skus : gset string)
    (c : client) (st : state) (ir : nat * row) : state :=
  let i := ir.1 in
  let r := ir.2 in
  let sku := Py.strip (Py.get_or_empty r "Variant SKU") in
  if bool_decide (sku ∈ completed_skus) then
    {| out := out st; buffer := buffer st; processed := processed st;
       skipped := S (skipped st); errors := errors st; trace := trace st |}
  else
    let g := generate_description c i r in
    let r' := augment g r in
    let processed' :=
      match g with Returned _ => S (processed st) | _ => processed st end in
    let errors' :=
      match g with Returned _ => errors st | _ => S (errors st) end in
    let buffer' := buffer st ++ [r'] in
    let checkpoint := Config.SAVE_EVERY_N <=? length buffer' in
    {| out := if checkpoint then append_rows (out st) fieldnames buffer'
              else out st;
       buffer := if checkpoint then [] else buffer';
       processed := processed';
       skipped := skipped st;
       errors := errors';
       trace := trace st ++ [EvCall i (request_content r); EvSleep] |}.

(** [enumerate(rows)] *)
Definition enumerate (rows : list row) : list (nat * row) :=
  zip (seq 0 (length rows)) rows.

(** The state when the loop starts: the output file after "Handle resume". *)
Definition initial_state (output : option csv_file) : state :=
  {| out := output; buffer := []; processed := 0; skipped := 0; errors := 0;
     trace := [] |}.

(** The completed set and the output file after "Handle resume". *)
Definition handle_resume (a : args) (fieldnames : list string)
    (output : option csv_file) : gset string * option csv_file :=
  if arg_resume a then (load_completed_skus output, output)
  else (∅, init_output_csv output fieldnames).

(** The loop of [main] stopped after its first [n] iterations. *)
Definition loop_prefix (n : nat) (fieldnames : list string)
    (completed_skus : gset string) (c : client) (rows : list row)
    (output : option csv_file) : state :=
  foldl (step fieldnames completed_skus c) (initial_state output)
        (take n (enumerate rows)).

(** "Flush remaining buffer". *)
Definition flush (fieldnames : list string) (st : state) : state :=
  match buffer st with
  | [] => st
  | _ =>
      {| out := append_rows (out st) fieldnames (buffer st);
         buffer := buffer st; processed := processed st;
         skipped := skipped st; errors := errors st; trace := trace st |}
  end.

(** [main()]: [api_key] is the key after the .env fallback, [input] and
    [output] are the files at the input and output paths, if they exist. *)
Definition main (a : args) (api_key : string) (input output : option csv_file)
    (c : client) : outcome :=
  if negb (Py.truthy api_key) then Exit 1
  else
    match input with
    | None => Exit 1
    | Some f =>
        let rows := limited_rows a f in
        let fieldnames := output_fieldnames rows in
        let '(completed_skus, output) := handle_resume a fieldnames output in
        let st := loop_prefix (length rows) fieldnames completed_skus c rows output in
        Done (flush fieldnames st)
    end.

(** [get_image_media_type(url)]: [split("?")[0]] is the text before the
    first question mark. *)
Definition get_image_media_type (url : string) : string :=
  let lower := hd "" (Py.split (Py.chr 63) (Py.lower url)) in
  if Py.endswith lower ".png" then "image/png"
  else if Py.endswith lower ".gif" then "image/gif"
  else if Py.endswith lower ".webp" then "image/webp"
  else "image/jpeg".

End Generate.

(* ===================================================================== *)
(** ** shopify-handles-generator/app.py                                   *)
(* ===================================================================== *)

Module App.

(** A parsed JSON value; a number keeps its literal. *)
Inductive json : Type :=
| JNull
| JBool (b : bool)
| JNumber (literal : string)
| JString (s : string)
| JArray (items : list json)
| JObject (members : list (string * json)).

(** What [client.messages.create] does in the service: [AuthenticationError]
    is a subclass of [APIError] and is caught first. *)
Inductive api_result : Type :=
| Message (content : list string)
| RaiseAuthenticationError (e : string)
| RaiseAPIError (e : string)
| RaiseException (e : string).

(** The body of POST /generate: each list is [None] when the key is absent
    or null. *)
Record generate_request : Type := {
  product_names : option (list string);
  existing_handles : option (list string)
}.

Inductive response_body : Type :=
| ErrorBody (error : string)
| ParseErrorBody (error raw : string)
| ResultsBody (results : json).

(** A response, with the user messages sent to the remote model on the way. *)
Record response : Type := {
  status : nat;
  body : response_body;
  remote_calls : list string
}.

(** [f"{j}. {name}\n"] for [j, name in enumerate(product_names, 1)] *)
Definition numbered_lines (names : list string) : string :=
  foldl (λ user_message jn,
           user_message +:+ PromptTemplate.str_nat jn.1 +:+ ". " +:+ jn.2 +:+ Py.nl)
        "" (zip (seq 1 (length names)) names).

Definition build_user_message (names existing : list string) : string :=
  let user_message :=
    "Generate Shopify handles for these products:" +:+ Py.nl +:+ Py.nl
    +:+ numbered_lines names in
  match existing with
  | [] => user_message
  | _ => user_message +:+ Py.nl +:+ Py.nl
         +:+ "Already-used handles (must not duplicate): "
         +:+ Py.join ", " existing
  end.

Definition FENCE : string := "```".

(** "Strip markdown code fences if present". *)
Definition strip_fences (response_text : string) : string :=
  if Py.startswith response_text FENCE then
    let lines := Py.split (Py.chr 10) response_text in
    let lines := filter (λ l, Py.strip l ≠ FENCE) (tail lines) in
    Py.join Py.nl lines
  else response_text.

Section Handler.

(** [json.loads]: [None] stands for [json.JSONDecodeError]. *)
Variable json_loads : string → option json.

(** The remote model: its answer to a user message. *)
Variable remote : string → api_result.

(** [generate_handles()]; the module-level [client] is [None] when
    [api_key] is empty. *)
Definition generate_handles (api_key : string) (data : generate_request)
  : response :=
  if negb (Py.truthy api_key) then
    {| status := 500;
       body := ErrorBody "ANTHROPIC_API_KEY is not set. Add it to your .env file and restart the server.";
       remote_calls := [] |}
  else
    let names := default [] (product_names data) in
    let existing := default [] (existing_handles data) in
    match names with
    | [] => {| status := 400; body := ErrorBody "No product names provided";
               remote_calls := [] |}
    | _ =>
        let user_message := build_user_message names existing in
        match remote user_message with
        | Message (text :: _) =>
            let response_text := strip_fences (Py.strip text) in
            match json_loads response_text with
            | None =>
                {| status := 500;
                   body := ParseErrorBody "Failed to parse AI response" response_text;
                   remote_calls := [user_message] |}
            | Some results =>
                {| status := 200; body := ResultsBody results;
                   remote_calls := [user_message] |}
            end
        | Message [] =>
            {| status := 500;
               body := ErrorBody ("Server error: " +:+ "list index out of range");
               remote_calls := [user_message] |}
        | RaiseAuthenticationError _ =>
            {| status := 401;
               body := ErrorBody "Invalid API key. Check your ANTHROPIC_API_KEY in the .env file.";
               remote_calls := [user_message] |}
        | RaiseAPIError e =>
            {| status := 502; body := ErrorBody ("Anthropic API error: " +:+ e);
               remote_calls := [user_message] |}
        | RaiseException e =>
            {| status := 500; body := ErrorBody ("Server error: " +:+ e);
               remote_calls := [user_message] |}
        end
    end.

End Handler.

(** The value of a spreadsheet cell: empty, a text, or any other value
    (number, boolean, date), of which the code reads [str(value)] and the
    truth value only. *)
Inductive cell_value : Type :=
| CNone
| CStr (s : string)
| CVal (repr : string) (truth : bool).

(** [ws.max_row], [ws.max_column] and [ws.cell(row, column).value]. *)
Record worksheet : Type := {
  max_row : nat;
  max_column : nat;
  cell : nat → nat → cell_value
}.

(** [bool(value)] *)
Definition cell_truthy (v : cell_value) : bool :=
  match v with
  | CNone => false
  | CStr s => Py.truthy s
  | CVal _ truth => truth
  end.

(** [str(value)] *)
Definition cell_str (v : cell_value) : string :=
  match v with
  | CNone => "None"
  | CStr s => s
  | CVal repr _ => repr
  end.

(** [str(value or "")] *)
Definition str_or_empty (v : cell_value) : string :=
  if cell_truthy v then cell_str v else "".

Definition KNOWN_HEADERS : list string :=
  ["product"; "product name"; "product_name"; "title"; "name"; "item";
   "item name"].

(** The test of the header search for one column. *)
Definition is_known_header (ws : worksheet) (col : nat) : bool :=
  let header := Py.strip (Py.lower (str_or_empty (cell ws 1 col))) in
  Py.contains KNOWN_HEADERS header.

(** The first column of row 1 holding a known header, if any. *)
Definition find_product_col (ws : worksheet) : option nat :=
  find (λ col, is_known_header ws col) (seq 1 (max_column ws)).

(** The header row chosen when no column matched. *)
Definition default_header_row (ws : worksheet) : nat :=
  let first_val := str_or_empty (cell ws 1 1) in
  match first_val with
  | String c _ => if negb (Py.isdigit c) then 1 else 0
  | EmptyString => 0
  end.

(** The extraction loop over [range(header_row + 1, ws.max_row + 1)]. *)
Definition extract_names (ws : worksheet) (product_col header_row : nat)
  : list string :=
  foldl (λ names r,
           let val := cell ws r product_col in
           if cell_truthy val && Py.truthy (Py.strip (cell_str val))
           then names ++ [Py.strip (cell_str val)] else names)
        [] (seq (header_row + 1) (max_row ws - header_row)).

Inductive upload_response : Type :=
| UploadError (status : nat) (error : string)
| UploadOk (names : list string) (product_col header_row : nat).

(** [upload_file()]: [None] when the request has no "file" part, else the
    file name and the active sheet of the workbook. *)
Definition upload_file (file : option (string * worksheet)) : upload_response :=
  match file with
  | None => UploadError 400 "No file uploaded"
  | Some (filename, ws) =>
      if negb (Py.endswith filename ".xlsx" || Py.endswith filename ".xls")
      then UploadError 400 "Please upload an Excel file (.xlsx)"
      else
        let '(product_col, header_row) :=
          match find_product_col ws with
          | Some col => (col, 1)
          | None => (1, default_header_row ws)
          end in
        UploadOk (extract_names ws product_col header_row) product_col header_row
  end.

(** The workbook built by [download_file]: the title of its sheet, the rows
    of cell texts, and the width set for each column. *)
Record workbook : Type := {
  sheet_title : string;
  sheet_rows : list (list string);
  column_widths : list nat
}.

(** What [download_file] does: [r["product_name"]] or [r["handle"]] raises
    [KeyError] (which nothing catches), or the workbook is sent under a
    file name. *)
Inductive download_response : Type :=
| DownloadKeyError (key : string)
| DownloadOk (download_name : string) (wb : workbook).

(** [[r["product_name"], r["handle"]]] *)
Definition entry_row (r : Py.dict) : string + list string :=
  match Py.get r "product_name" with
  | None => inl "product_name"
  | Some product_name =>
      match Py.get r "handle" with
      | None => inl "handle"
      | Some handle => inr [product_name; handle]
      end
  end.

(** [for r in results: ws.append(...)] on the rows the sheet holds. *)
Fixpoint append_results (rows : list (list string)) (results : list Py.dict)
  : string + list (list string) :=
  match results with
  | [] => inr rows
  | r :: rest =>
      match entry_row r with
      | inl key => inl key
      | inr cells => append_results (rows ++ [cells]) rest
      end
  end.

(** The cells of column [j] (from 0), one per row. *)
Definition column (rows : list (list string)) (j : nat) : list string :=
  (λ cells, default "" (cells !! j)) <$> rows.

(** [min(max(len(str(cell.value or "")) for cell in col) + 2, 60)] *)
Definition column_width (cells : list string) : nat :=
  Nat.min (foldr Nat.max 0 (String.length <$> cells) + 2) 60.

(** [download_file()]: [results] is [None] when the body has no "results". *)
Definition download_file (results : option (list Py.dict)) : download_response :=
  let results := default [] results in
  match append_results [["Product Name"; "Handle"]] results with
  | inl key => DownloadKeyError key
  | inr rows =>
      DownloadOk "shopify_handles.xlsx"
        {| sheet_title := "Shopify Handles";
           sheet_rows := rows;
           column_widths := column_width <$> [column rows 0; column rows 1] |}
  end.

End App.

(* ===================================================================== *)
(** ** Specification-side definitions                                     *)
(* ===================================================================== *)

Module Spec.
Import PromptTemplate.

(** The optional labelled fields of the prompt, in their fixed order. *)
Definition LABELED_FIELDS : list (string * string) :=
  [("Brand/Vendor: ", "Vendor");
   ("Current description: ", "description");
   ("Units/sizing: ", "units_01");
   ("Certifications: ", "certifications");
   ("Nutritional claims: ", "nutritional_claims");
   ("Occasion: ", "occasion")].

Definition MINI_KEYS : list string :=
  ["description_mini_01"; "description_mini_02"; "description_mini_03";
   "description_mini_04"].

(** Every key the prompt may read. *)
Definition PROMPT_KEYS : list string :=
  "Title" :: LABELED_FIELDS.*2 ++ MINI_KEYS.

(** A labelled line, emitted only for a present, non-empty field. *)
Definition labeled_line (row : Py.dict) (lk : string * string) : option string :=
  if present row lk.2 then Some (lk.1 +:+ item row lk.2) else None.

(** The line of mini-descriptions, when there is at least one. *)
Definition minis_line (row : Py.dict) : list string :=
  match omap (λ k, if present row k then Some (item row k) else None) MINI_KEYS with
  | [] => []
  | minis => ["Additional details: " +:+ Py.join " | " minis]
  end.

(** The lines of the prompt as the specification words them: the title is
    one of the skippable fields. *)
Definition claimed_lines (row : Py.dict) : list string :=
  omap (labeled_line row) (("Product title: ", "Title") :: LABELED_FIELDS)
  ++ minis_line row ++ [INSTRUCTION].

(** The lines of the prompt with the title line always there. *)
Definition prompt_lines (row : Py.dict) : list string :=
  ("Product title: " +:+ Py.get_default row "Title" "")
  :: omap (labeled_line row) LABELED_FIELDS
  ++ minis_line row ++ [INSTRUCTION].

(** The first character of a text is a digit. *)
Definition starts_with_digit (s : string) : bool :=
  match s with
  | String c _ => Py.isdigit c
  | EmptyString => false
  end.

(** The name extracted from one cell, if the cell yields one. *)
Definition cell_name (v : App.cell_value) : option string :=
  if App.cell_truthy v && Py.truthy (Py.strip (App.cell_str v))
  then Some (Py.strip (App.cell_str v)) else None.

(** The member of a JSON object under a key. *)
Fixpoint member (members : list (string * App.json)) (k : string)
  : option App.json :=
  match members with
  | [] => None
  | (k', v) :: ms => if String.eqb k' k then Some v else member ms k
  end.

(** One result entry carries the product name it was made for. *)
Definition carries_name (name : string) (entry : App.json) : Prop :=
  ∃ members, entry = App.JObject members
             ∧ member members "product_name" = Some (App.JString name).

(** The results are one entry per product name, each carrying its name. *)
Definition carries_names (names : list string) (results : App.json) : Prop :=
  ∃ entries, results = App.JArray entries
             ∧ length entries = length names
             ∧ Forall2 carries_name names entries.

(** [json.loads] on the one text "[]", the empty array; every other text
    is left unparsed. *)
Definition loads_empty_array (text : string) : option App.json :=
  if String.eqb text "[]" then Some (App.JArray []) else None.

(** A worksheet given by its rows of cells; an empty sheet still has one
    row and one column, and a cell outside the rows is empty. *)
Definition sheet_of_rows (rows : list (list App.cell_value)) : App.worksheet :=
  {| App.max_row := Nat.max 1 (length rows);
     App.max_column := Nat.max 1 (foldr Nat.max 0 (length <$> rows));
     App.cell := λ r c,
       match r, c with
       | S r', S c' => default App.CNone (rows !! r' ≫= (λ cells, cells !! c'))
       | _, _ => App.CNone
       end |}.

(** The skip check of the loop in [main]. *)
Definition is_skipped (completed_skus : gset string) (r : Csv.row) : bool :=
  bool_decide (Py.strip (Py.get_or_empty r "Variant SKU") ∈ completed_skus).

(** The augmented rows the loop produces for the rows it does not skip, in
    input order. *)
Definition outputs (completed_skus : gset string) (c : Generate.client)
    (irows : list (nat * Csv.row)) : list Csv.row :=
  omap (λ ir, if is_skipped completed_skus ir.2 then None
              else Some (Generate.augment
                           (Generate.generate_description c ir.1 ir.2) ir.2))
       irows.

(** The remote calls and sleeps of the rows that are not skipped. *)
Definition activity (completed_skus : gset string)
    (irows : list (nat * Csv.row)) : list Generate.event :=
  irows ≫= (λ ir, if is_skipped completed_skus ir.2 then []
                   else [Generate.EvCall ir.1 (Generate.request_content ir.2);
                         Generate.EvSleep]).

(** The "generation_status" of a record of the output file, read under the
    given header. *)
Definition status_of (fieldnames : list string) (rec : Csv.record) : string :=
  Py.get_default (Py.of_pairs (zip fieldnames rec)) "generation_status" "".

(** A CSV file whose records, the blank ones apart, have one cell per header
    field. *)
Definition rectangular (f : Csv.csv_file) : Prop :=
  match f with
  | [] => True
  | fieldnames :: records =>
      Forall (λ rec, rec = [] ∨ length rec = length fieldnames) records
  end.

(** The output file is rectangular whenever the run reads it, which it does
    under [--resume] only. *)
Definition resumable (a : Generate.args) (output : option Csv.csv_file) : Prop :=
  Generate.arg_resume a = true →
  match output with Some o => rectangular o | None => True end.

(** A row of strings as a row of the reader on any file. *)
Definition as_any_row (r : Csv.row) : Csv.any_row :=
  {| Csv.fields := (λ kv : string * string, (kv.1, Some kv.2)) <$> r;
     Csv.restkey := [] |}.

(** The keys of a [dict] built from pairs with these first components, in
    the order of their first occurrence. *)
Definition distinct_keys (names : list string) : list string :=
  foldl (λ ks k, if Py.contains ks k then ks else ks ++ [k]) [] names.

Definition is_call (e : Generate.event) : bool :=
  match e with Generate.EvCall _ _ => true | Generate.EvSleep => false end.

(** The remote calls in a trace. *)
Definition calls_in (t : list Generate.event) : nat :=
  length (List.filter is_call t).

(** The sleeps in a trace. *)
Definition sleeps_in (t : list Generate.event) : nat :=
  length (List.filter (λ e, negb (is_call e)) t).

(** The sheet of a workbook as it is read back. *)
Definition sheet_of_workbook (wb : App.workbook) : App.worksheet :=
  sheet_of_rows
    ((λ cells : list string, App.CStr <$> cells) <$> App.sheet_rows wb).

(** The character occurs in the text. *)
Fixpoint has_char (c : ascii) (s : string) : bool :=
  match s with
  | EmptyString => false
  | String x s' => Ascii.eqb x c || has_char c s'
  end.

(** The numbered lines of the user message: "1. name", "2. name", ... *)
Definition numbered_from (a : nat) (names : list string) : list string :=
  zip_with (λ j name, PromptTemplate.str_nat j +:+ ". " +:+ name)
           (seq a (length names)) names.

(** The text made of lines, each followed by a line feed. *)
Fixpoint text_of_lines (lines : list string) : string :=
  match lines with
  | [] => ""
  | l :: lines' => l +:+ Py.nl +:+ text_of_lines lines'
  end.

(** The lines of the user message of POST /generate. *)
Definition message_lines (names existing : list string) : list string :=
  ["Generate Shopify handles for these products:"; ""]
  ++ numbered_from 1 names
  ++ match existing with
     | [] => [""]
     | _ => [""; "";
             "Already-used handles (must not duplicate): "
             +:+ Py.join ", " existing]
     end.

End Spec.

(* ===================================================================== *)
(** ** Properties                                                         *)
(* ===================================================================== *)

Import Py Csv.

#[local] Arguments Nat.modulo : simpl never.
#[local] Arguments Nat.div : simpl never.

(** *** Strings and dictionaries *)

Lemma truthy_true (s : string) : truthy s = true ↔ s ≠ "".
Proof. destruct s; simpl; split; intros; congruence. Qed.

Lemma truthy_false (s : string) : truthy s = false ↔ s = "".
Proof. destruct s; simpl; split; intros; congruence. Qed.

Lemma get_set_eq (d : dict) (k v : string) : get (set d k v) k = Some v.
Proof.
  induction d as [|[k' v'] d IH]; simpl.
  - by rewrite String.eqb_refl.
  - destruct (String.eqb k' k) eqn:E; simpl; rewrite E; [done | apply IH].
Qed.

Lemma get_set_ne (d : dict) (k k' v : string) :
  k ≠ k' → get (set d k v) k' = get d k'.
Proof.
  intros Hne. induction d as [|[k0 v0] d IH]; simpl.
  - destruct (String.eqb k k') eqn:E; [|done].
    apply String.eqb_eq in E. contradiction.
  - destruct (String.eqb k0 k) eqn:E; simpl.
    + apply String.eqb_eq in E. subst k0.
      destruct (String.eqb k k') eqn:E'; [|done].
      apply String.eqb_eq in E'. contradiction.
    + by rewrite IH.
Qed.

Lemma contains_elem_of (l : list string) (k : string) :
  contains l k = true ↔ k ∈ l.
Proof.
  unfold contains. rewrite existsb_exists. split.
  - intros (x & Hx & E). apply String.eqb_eq in E. subst x.
    by apply list_elem_of_In.
  - intros H. exists k. split; [by apply list_elem_of_In | apply String.eqb_refl].
Qed.

(** Rectangularity of a file given by its records, and of the output file
    of a run given by its arguments. *)
Ltac rectangular_file :=
  cbn [Spec.rectangular];
  repeat (constructor; [first [by left | by right] |]); constructor.

Ltac resumable_file :=
  let H := fresh in
  unfold Spec.resumable; cbn [Generate.arg_resume]; intros H;
  first [discriminate H | exact I | rectangular_file].

(** *** The resume detector *)

Lemma completed_fold (rows : list row) (acc : gset string) (k : string) :
  k ∈ foldl Generate.add_if_completed acc rows ↔
  k ∈ acc ∨ ∃ r, r ∈ rows
                ∧ strip (get_default r "Variant SKU" "") = k
                ∧ k ≠ ""
                ∧ strip (get_default r "new_description" "") ≠ "".
Proof.
  revert acc. induction rows as [|r rows IH]; intros acc; simpl.
  - split; [by left | intros [H | (r & Hr & _)]; [done | by apply elem_of_nil in Hr]].
  - rewrite IH. unfold Generate.add_if_completed; cbv zeta.
    destruct (truthy (strip (get_default r "Variant SKU" ""))) eqn:Es;
      [destruct (truthy (strip (get_default r "new_description" ""))) eqn:Ed|];
      simpl.
    + apply truthy_true in Es, Ed. rewrite elem_of_union, elem_of_singleton.
      split.
      * intros [[H | ->] | (r' & Hr' & H)].
        -- by left.
        -- right. exists r. split; [left | done].
        -- right. exists r'. split; [by right | done].
      * intros [H | (r' & Hr' & H1 & H2 & H3)]; [by left; left |].
        apply elem_of_cons in Hr' as [-> | Hr'].
        -- left; right. done.
        -- right. exists r'. done.
    + apply truthy_false in Ed. split.
      * intros [H | (r' & Hr' & H)]; [by left |].
        right. exists r'. split; [by right | done].
      * intros [H | (r' & Hr' & H1 & H2 & H3)]; [by left |].
        apply elem_of_cons in Hr' as [-> | Hr']; [congruence |].
        right. exists r'. done.
    + apply truthy_false in Es. split.
      * intros [H | (r' & Hr' & H)]; [by left |].
        right. exists r'. split; [by right | done].
      * intros [H | (r' & Hr' & H1 & H2 & H3)]; [by left |].
        apply elem_of_cons in Hr' as [-> | Hr']; [congruence |].
        right. exists r'. done.
Qed.

Lemma completed_iff (f : csv_file) (k : string) :
  k ∈ Generate.load_completed_skus (Some f) ↔
  ∃ r : row, r ∈ DictReader f
             ∧ strip (get_default r "Variant SKU" "") = k
             ∧ k ≠ ""
             ∧ strip (get_default r "new_description" "") ≠ "".
Proof.
  unfold Generate.load_completed_skus.
  rewrite completed_fold. split; [|by right].
  intros [H | H]; [by apply not_elem_of_empty in H | done].
Qed.

(** On a row of strings the lookups of the reader on any file are those of
    [Py.get_default], and the writes those of [Py.set]. *)
Lemma get_value_as_any (r : row) (k dflt : string) :
  Csv.get_value (Csv.fields (Spec.as_any_row r)) k dflt
  = Some (get_default r k dflt).
Proof.
  unfold get_default. cbn [Spec.as_any_row Csv.fields].
  induction r as [|[k' v] r IH]; [done|].
  cbn [fmap list_fmap Csv.get_value Py.get fst snd].
  destruct (String.eqb k' k); [done | exact IH].
Qed.

Lemma set_value_as_any (r : row) (k v : string) :
  Csv.set_value (Csv.fields (Spec.as_any_row r)) k (Some v)
  = Csv.fields (Spec.as_any_row (Py.set r k v)).
Proof.
  cbn [Spec.as_any_row Csv.fields].
  induction r as [|[k' v'] r IH]; [done|].
  cbn [fmap list_fmap Csv.set_value Py.set fst snd].
  destruct (String.eqb k' k); [done|].
  cbn [fmap list_fmap fst snd]. by rewrite IH.
Qed.

Lemma of_pairs_as_any (pairs : list (string * string)) (r : row) :
  foldl (λ d kv, Csv.set_value d kv.1 (Some kv.2))
        (Csv.fields (Spec.as_any_row r)) pairs
  = Csv.fields (Spec.as_any_row (foldl (λ d kv, Py.set d kv.1 kv.2) r pairs)).
Proof.
  revert r. induction pairs as [|[k v] pairs IH]; intros r; [done|].
  cbn [foldl fst snd]. by rewrite set_value_as_any, IH.
Qed.

(** On a rectangular file the reader on any file yields the string-valued
    rows of [DictReader]: no value is [None] and no row has the key
    [None]. *)
Lemma DictReader_any_rectangular (f : csv_file) :
  Spec.rectangular f →
  Csv.DictReader_any f = Spec.as_any_row <$> DictReader f.
Proof.
  destruct f as [|fieldnames records]; [done|].
  cbn [Spec.rectangular Csv.DictReader_any DictReader].
  intros Hrect. rewrite <- list_fmap_compose.
  apply list_fmap_ext. intros i rec Hi.
  apply list_elem_of_lookup_2, list_elem_of_filter in Hi as [Hne Hrec].
  rewrite Forall_forall in Hrect.
  destruct (Hrect rec Hrec) as [-> | Hlen]; [done|].
  cbn [compose]. cbv zeta.
  rewrite <- Hlen, drop_all. rewrite Hlen, drop_all. cbn [foldl].
  change (@nil (string * option string))
    with (Csv.fields (Spec.as_any_row [])).
  rewrite of_pairs_as_any. done.
Qed.

Lemma add_if_completed_as_any (completed : gset string) (r : row) :
  Generate.add_if_completed_any completed (Spec.as_any_row r)
  = Some (Generate.add_if_completed completed r).
Proof.
  unfold Generate.add_if_completed_any, Generate.add_if_completed.
  rewrite !get_value_as_any. cbv zeta.
  destruct (truthy (strip (get_default r "Variant SKU" ""))); [|done].
  by destruct (truthy (strip (get_default r "new_description" ""))).
Qed.

Lemma completed_any_fold (rows : list row) (acc : gset string) :
  foldl (λ acc r, acc ≫= λ completed,
                    Generate.add_if_completed_any completed r)
        (Some acc) (Spec.as_any_row <$> rows)
  = Some (foldl Generate.add_if_completed acc rows).
Proof.
  revert acc. induction rows as [|r rows IH]; intros acc; [done|].
  cbn [fmap list_fmap foldl]. cbn [mbind option_bind].
  rewrite add_if_completed_as_any. apply IH.
Qed.

(** On a rectangular file [load_completed_skus] raises nothing: it returns
    the set computed on the string-valued rows. *)
Lemma load_completed_skus_returns (f : csv_file) :
  Spec.rectangular f →
  Generate.load_completed_skus_any (Some f)
  = Some (Generate.load_completed_skus (Some f)).
Proof.
  intros Hrect. unfold Generate.load_completed_skus_any.
  rewrite DictReader_any_rectangular by done.
  apply completed_any_fold.
Qed.

(** C1: the claim fails on an output file with a record shorter than the
    header, such as a last line cut off while it was written.  With the one
    complete record the detector returns the key "A"; with the cut record
    after it, whose "new_description" is [None], [.strip()] raises and the
    detector returns no set, where the claim has it return the key "A"
    again. *)
Theorem load_completed_skus_short_record :
  let header :=
    ["Variant SKU"; "Title"; "new_description"; "generation_status"] in
  let complete := ["A"; "Gummy Bears"; "Soft and fruity."; "success"] in
  Generate.load_completed_skus_any (Some [header; complete]) = Some {["A"]}
  ∧ Generate.load_completed_skus_any
      (Some [header; complete; ["B"; "Sour Wor"]]) = None.
Proof.
  split; vm_compute; reflexivity.
Qed.

(** On a rectangular output file [load_completed_skus] raises nothing, and
    the set it returns holds exactly the keys [k] for which some row of the
    file has the trimmed "Variant SKU" value [k], with [k] non-empty, and a
    "new_description" that is non-empty after trimming; a row whose
    "new_description" is blank contributes no key. *)
Theorem load_completed_skus_exact (f : csv_file) :
  Spec.rectangular f →
  ∃ completed,
    Generate.load_completed_skus_any (Some f) = Some completed
    ∧ completed = Generate.load_completed_skus (Some f)
    ∧ ∀ k, k ∈ completed ↔
        ∃ r : row, r ∈ DictReader f
                   ∧ strip (get_default r "Variant SKU" "") = k
                   ∧ k ≠ ""
                   ∧ strip (get_default r "new_description" "") ≠ "".
Proof.
  intros Hrect. eexists. split; [by apply load_completed_skus_returns |].
  split; [done |]. intros k. apply completed_iff.
Qed.

Lemma load_completed_skus_exact_witness :
  ∃ completed,
    Generate.load_completed_skus_any
      (Some [["Variant SKU"; "Title"; "new_description"; "generation_status"];
             [" A "; "Gummy Bears"; "Soft and fruity."; "success"];
             ["B"; "Sour Worms"; "  "; "error: overloaded"];
             [""; "Mints"; "Cool."; "success"]])
    = Some completed
    ∧ completed = {["A"]}.
Proof.
  destruct (load_completed_skus_exact
              [["Variant SKU"; "Title"; "new_description"; "generation_status"];
               [" A "; "Gummy Bears"; "Soft and fruity."; "success"];
               ["B"; "Sour Worms"; "  "; "error: overloaded"];
               [""; "Mints"; "Cool."; "success"]])
    as (completed & Hc & -> & _); [rectangular_file |].
  eexists. split; [exact Hc |]. vm_compute. reflexivity.
Defined.

(** *** The prompt builder *)

Lemma minis_collected (row : dict) :
  foldl (λ minis i,
           let key := "description_mini_0" +:+ PromptTemplate.str_nat i in
           if PromptTemplate.present row key
           then minis ++ [PromptTemplate.item row key] else minis)
        [] (seq 1 4)
  = omap (λ k, if PromptTemplate.present row k
               then Some (PromptTemplate.item row k) else None)
         Spec.MINI_KEYS.
Proof.
  unfold Spec.MINI_KEYS. simpl.
  change (PromptTemplate.str_nat 1) with "1".
  change (PromptTemplate.str_nat 2) with "2".
  change (PromptTemplate.str_nat 3) with "3".
  change (PromptTemplate.str_nat 4) with "4".
  change ("description_mini_0" +:+ "1") with "description_mini_01".
  change ("description_mini_0" +:+ "2") with "description_mini_02".
  change ("description_mini_0" +:+ "3") with "description_mini_03".
  change ("description_mini_0" +:+ "4") with "description_mini_04".
  destruct (PromptTemplate.present row "description_mini_01");
    destruct (PromptTemplate.present row "description_mini_02");
    destruct (PromptTemplate.present row "description_mini_03");
    destruct (PromptTemplate.present row "description_mini_04");
    reflexivity.
Qed.

Lemma build_user_prompt_lines (row : dict) :
  PromptTemplate.build_user_prompt row = join nl (Spec.prompt_lines row).
Proof.
  unfold PromptTemplate.build_user_prompt, Spec.prompt_lines, Spec.minis_line.
  cbv zeta. rewrite minis_collected.
  f_equal.
  destruct (omap _ Spec.MINI_KEYS) as [|m ms];
    unfold Spec.labeled_line, Spec.LABELED_FIELDS; simpl;
    destruct (PromptTemplate.present row "Vendor");
    destruct (PromptTemplate.present row "description");
    destruct (PromptTemplate.present row "units_01");
    destruct (PromptTemplate.present row "certifications");
    destruct (PromptTemplate.present row "nutritional_claims");
    destruct (PromptTemplate.present row "occasion");
    reflexivity.
Qed.

Lemma prompt_lines_depend_on_fields (row row' : dict) :
  (∀ k, k ∈ Spec.PROMPT_KEYS → get row' k = get row k) →
  Spec.prompt_lines row' = Spec.prompt_lines row.
Proof.
  intros H.
  assert (Hk : Forall (λ k, get row' k = get row k) Spec.PROMPT_KEYS)
    by (apply Forall_forall; exact H).
  unfold Spec.PROMPT_KEYS, Spec.LABELED_FIELDS, Spec.MINI_KEYS in Hk.
  simpl in Hk.
  repeat match goal with
         | Hc : Forall _ (_ :: _) |- _ =>
             let E := fresh "E" in
             apply Forall_cons in Hc as [E Hc]
         end.
  unfold Spec.prompt_lines, Spec.minis_line, Spec.labeled_line,
    Spec.LABELED_FIELDS, Spec.MINI_KEYS, PromptTemplate.present,
    PromptTemplate.item, get_default.
  simpl. rewrite E, E0, E1, E2, E3, E4, E5, E6, E7, E8, E9. reflexivity.
Qed.

(** C8 (as amended): the prompt is the title line, always there even when
    the title is empty or absent, then the labelled lines of the present
    non-empty fields vendor, description, sizing, certifications,
    nutritional claims and occasion in that order, then the present
    mini-descriptions joined by " | " when there is at least one, then the
    fixed instruction, all joined by line feeds; and two records with the
    same values under the keys the builder reads give the same prompt. *)
Theorem build_user_prompt_spec (row row' : dict) :
  PromptTemplate.build_user_prompt row = join nl (Spec.prompt_lines row)
  ∧ ((∀ k, k ∈ Spec.PROMPT_KEYS → get row' k = get row k) →
     PromptTemplate.build_user_prompt row' = PromptTemplate.build_user_prompt row).
Proof.
  split; [apply build_user_prompt_lines |].
  intros H. rewrite !build_user_prompt_lines.
  by rewrite (prompt_lines_depend_on_fields row row').
Qed.

Lemma build_user_prompt_spec_witness :
  PromptTemplate.build_user_prompt
    [("Handle", "gummy-bears"); ("Vendor", "Haribo"); ("Title", "Gummy Bears")]
  = PromptTemplate.build_user_prompt
      [("Title", "Gummy Bears"); ("Vendor", "Haribo")].
Proof.
  apply (build_user_prompt_spec
           [("Title", "Gummy Bears"); ("Vendor", "Haribo")]
           [("Handle", "gummy-bears"); ("Vendor", "Haribo"); ("Title", "Gummy Bears")]).
  intros k Hk. unfold Spec.PROMPT_KEYS, Spec.LABELED_FIELDS, Spec.MINI_KEYS in Hk.
  simpl in Hk.
  repeat (apply elem_of_cons in Hk as [-> | Hk]; [reflexivity |]).
  by apply elem_of_nil in Hk.
Defined.

(** C8, as stated, fails: a record without a title still gets the title
    line. *)
Lemma build_user_prompt_keeps_empty_title :
  PromptTemplate.build_user_prompt [("Vendor", "Haribo")]
  ≠ join nl (Spec.claimed_lines [("Vendor", "Haribo")])
  ∧ PromptTemplate.build_user_prompt [("Vendor", "Haribo")]
    = join nl ["Product title: "; "Brand/Vendor: Haribo"; PromptTemplate.INSTRUCTION].
Proof. split; [vm_compute; discriminate | reflexivity]. Qed.

(** *** The handle service: POST /generate *)

(** C6: POST /generate answers 500 with an error message, and calls
    nothing, when the credential is missing; 400 when the list of product
    names is empty or absent; 401 when the remote call raises an
    authentication error; 502 when it raises another API error; 500 with
    the fence-stripped response text attached when that text does not parse
    as JSON; 500 on any other failure; and 200 with the parsed value under
    "results" otherwise. *)
Theorem generate_handles_statuses (json_loads : string → option App.json)
    (remote : string → App.api_result) (api_key : string)
    (data : App.generate_request) :
  let r := App.generate_handles json_loads remote api_key data in
  let names := default [] (App.product_names data) in
  let user_message :=
    App.build_user_message names (default [] (App.existing_handles data)) in
  (api_key = "" →
     App.status r = 500 ∧ (∃ e, App.body r = App.ErrorBody e)
     ∧ App.remote_calls r = [])
  ∧ (api_key ≠ "" → names = [] →
     App.status r = 400 ∧ (∃ e, App.body r = App.ErrorBody e)
     ∧ App.remote_calls r = [])
  ∧ (api_key ≠ "" → names ≠ [] →
     App.remote_calls r = [user_message]
     ∧ match remote user_message with
       | App.RaiseAuthenticationError _ =>
           App.status r = 401 ∧ ∃ e, App.body r = App.ErrorBody e
       | App.RaiseAPIError e =>
           App.status r = 502
           ∧ App.body r = App.ErrorBody ("Anthropic API error: " +:+ e)
       | App.RaiseException e =>
           App.status r = 500
           ∧ App.body r = App.ErrorBody ("Server error: " +:+ e)
       | App.Message [] =>
           App.status r = 500 ∧ ∃ e, App.body r = App.ErrorBody e
       | App.Message (text :: _) =>
           let response_text := App.strip_fences (strip text) in
           match json_loads response_text with
           | None =>
               App.status r = 500
               ∧ App.body r
                 = App.ParseErrorBody "Failed to parse AI response" response_text
           | Some results =>
               App.status r = 200 ∧ App.body r = App.ResultsBody results
           end
       end).
Proof.
  intros r names user_message. subst r. unfold App.generate_handles.
  fold names. fold user_message.
  split; [|split].
  - intros ->. simpl. eauto.
  - intros Hk Hn. apply truthy_true in Hk. rewrite Hk, Hn. simpl. eauto.
  - intros Hk Hn. apply truthy_true in Hk. rewrite Hk. simpl.
    destruct names as [|n ns]; [done |].
    destruct (remote user_message) as [[|text rest] | e | e | e]; simpl; eauto.
    destruct (json_loads _); simpl; eauto.
Qed.

Lemma generate_handles_statuses_witness :
  App.status
    (App.generate_handles Spec.loads_empty_array
       (λ _, App.RaiseAPIError "overloaded") "sk-test"
       {| App.product_names := Some ["Sour Patch Kids"];
          App.existing_handles := None |}) = 502
  ∧ App.status
      (App.generate_handles Spec.loads_empty_array
         (λ _, App.RaiseAPIError "overloaded") ""
         {| App.product_names := Some ["Sour Patch Kids"];
            App.existing_handles := None |}) = 500
  ∧ App.status
      (App.generate_handles Spec.loads_empty_array
         (λ _, App.RaiseAPIError "overloaded") "sk-test"
         {| App.product_names := None; App.existing_handles := None |}) = 400.
Proof.
  split; [|split].
  - apply (generate_handles_statuses Spec.loads_empty_array
             (λ _, App.RaiseAPIError "overloaded") "sk-test"
             {| App.product_names := Some ["Sour Patch Kids"];
                App.existing_handles := None |}); simpl; congruence.
  - apply (generate_handles_statuses Spec.loads_empty_array
             (λ _, App.RaiseAPIError "overloaded") ""
             {| App.product_names := Some ["Sour Patch Kids"];
                App.existing_handles := None |}); reflexivity.
  - apply (generate_handles_statuses Spec.loads_empty_array
             (λ _, App.RaiseAPIError "overloaded") "sk-test"
             {| App.product_names := None; App.existing_handles := None |});
      simpl; congruence.
Defined.

(** C7 (as amended): a response of POST /generate with status 200 carries
    under "results" exactly the value [json.loads] gives for the first
    content text of the remote reply, trimmed and with its code fences
    removed; nothing relates that value to the product names sent. *)
Theorem generate_handles_results (json_loads : string → option App.json)
    (remote : string → App.api_result) (api_key : string)
    (data : App.generate_request) :
  let r := App.generate_handles json_loads remote api_key data in
  App.status r = 200 →
  ∃ text rest results,
    remote (App.build_user_message (default [] (App.product_names data))
                                   (default [] (App.existing_handles data)))
    = App.Message (text :: rest)
    ∧ json_loads (App.strip_fences (strip text)) = Some results
    ∧ App.body r = App.ResultsBody results.
Proof.
  intros r. subst r. unfold App.generate_handles.
  destruct (negb (truthy api_key)); [simpl; discriminate |].
  destruct (default [] (App.product_names data)) as [|n ns] eqn:En;
    [simpl; discriminate |].
  destruct (remote _) as [[|text rest] | e | e | e]; simpl; try discriminate.
  destruct (json_loads _) as [results|] eqn:Ej; simpl; [|discriminate].
  intros _. by exists text, rest, results.
Qed.

Lemma generate_handles_results_witness :
  ∃ text rest results,
    (λ _ : string, App.Message ["[]"])
      (App.build_user_message ["Sour Patch Kids"] [])
    = App.Message (text :: rest)
    ∧ Spec.loads_empty_array (App.strip_fences (strip text)) = Some results
    ∧ App.body
        (App.generate_handles Spec.loads_empty_array
           (λ _, App.Message ["[]"]) "sk-test"
           {| App.product_names := Some ["Sour Patch Kids"];
              App.existing_handles := None |})
      = App.ResultsBody results.
Proof.
  apply (generate_handles_results Spec.loads_empty_array
           (λ _, App.Message ["[]"]) "sk-test"
           {| App.product_names := Some ["Sour Patch Kids"];
              App.existing_handles := None |}).
  reflexivity.
Defined.

(** C7, as stated, fails: two distinct names are sent, the remote model
    answers with the empty array, and the handler accepts it with no
    entry. *)
Lemma generate_handles_accepts_any_count :
  let names := ["Mike & Ike Mega Mix 5lb"; "Mike & Ike Mega Mix 10lb"] in
  let r := App.generate_handles Spec.loads_empty_array
             (λ _, App.Message ["[]"]) "sk-test"
             {| App.product_names := Some names;
                App.existing_handles := None |} in
  NoDup names
  ∧ App.status r = 200
  ∧ App.body r = App.ResultsBody (App.JArray [])
  ∧ ¬ Spec.carries_names names (App.JArray []).
Proof.
  cbv zeta. split; [|split; [|split]]; try reflexivity.
  - apply NoDup_cons. split.
    + intros H. apply list_elem_of_singleton in H. discriminate.
    + apply NoDup_singleton.
  - intros (entries & E & Hl & _). injection E as <-. simpl in Hl. discriminate.
Qed.

(** *** The handle service: POST /upload *)

Lemma isdigit_not_space (c : ascii) : isdigit c = true → isspace c = false.
Proof.
  unfold isdigit, isspace. cbv zeta.
  generalize (nat_of_ascii c). intros n H.
  apply andb_true_iff in H as [H1 H2].
  apply Nat.leb_le in H1. apply Nat.leb_le in H2.
  apply orb_false_iff. split; apply andb_false_iff.
  - right. apply Nat.leb_gt. lia.
  - right. apply Nat.leb_gt. lia.
Qed.

Lemma strip_starts_with_digit (s : string) :
  Spec.starts_with_digit s = true → strip s ≠ "".
Proof.
  destruct s as [|c s]; simpl; [discriminate |].
  intros H. apply isdigit_not_space in H.
  unfold strip. simpl. rewrite H. simpl.
  destruct (rstrip s); [rewrite H|]; discriminate.
Qed.

Lemma extract_names_fold (ws : App.worksheet) (col : nat) (rows : list nat)
    (acc : list string) :
  foldl (λ names r,
           let val := App.cell ws r col in
           if App.cell_truthy val && truthy (strip (App.cell_str val))
           then names ++ [strip (App.cell_str val)] else names)
        acc rows
  = acc ++ omap (λ r, Spec.cell_name (App.cell ws r col)) rows.
Proof.
  revert acc. induction rows as [|r rows IH]; intros acc; simpl.
  - by rewrite app_nil_r.
  - rewrite IH. unfold Spec.cell_name.
    destruct (App.cell_truthy (App.cell ws r col)
              && truthy (strip (App.cell_str (App.cell ws r col)))); simpl.
    + by rewrite <- app_assoc.
    + done.
Qed.

Lemma find_product_col_none (ws : App.worksheet) :
  (∀ col, 1 ≤ col ≤ App.max_column ws → App.is_known_header ws col = false) →
  App.find_product_col ws = None.
Proof.
  intros H. unfold App.find_product_col.
  destruct (find _ _) as [col|] eqn:E; [|done].
  apply find_some in E as [Hin Hk].
  apply in_seq in Hin. rewrite H in Hk; [discriminate | lia].
Qed.

(** C9 (as amended): when no cell of row 1 is a recognised header, the
    importer selects column 1; it reports header row 0 exactly when the text
    of the first cell is empty or starts with a digit, and header row 1
    otherwise; the names are, in row order, the trimmed texts of the cells
    of column 1 below the header row whose value is truthy and whose text is
    not blank; and when the first cell starts with a digit, its trimmed text
    is the first name. *)
Theorem upload_without_known_header (filename : string) (ws : App.worksheet) :
  endswith filename ".xlsx" || endswith filename ".xls" = true →
  (∀ col, 1 ≤ col ≤ App.max_column ws → App.is_known_header ws col = false) →
  1 ≤ App.max_row ws →
  let first_val := App.str_or_empty (App.cell ws 1 1) in
  let header_row :=
    if truthy first_val && negb (Spec.starts_with_digit first_val) then 1 else 0 in
  let names :=
    omap (λ r, Spec.cell_name (App.cell ws r 1))
         (seq (header_row + 1) (App.max_row ws - header_row)) in
  App.upload_file (Some (filename, ws)) = App.UploadOk names 1 header_row
  ∧ (header_row = 0 ↔ first_val = "" ∨ Spec.starts_with_digit first_val = true)
  ∧ (header_row = 1 ↔ first_val ≠ "" ∧ Spec.starts_with_digit first_val = false)
  ∧ (Spec.starts_with_digit first_val = true →
     names = strip first_val
             :: omap (λ r, Spec.cell_name (App.cell ws r 1))
                     (seq 2 (App.max_row ws - 1))).
Proof.
  intros Hext Hnone Hrows first_val header_row names.
  split; [|split; [|split]].
  - unfold App.upload_file. rewrite Hext. simpl.
    rewrite (find_product_col_none ws Hnone).
    unfold App.extract_names. rewrite extract_names_fold. simpl.
    assert (E : App.default_header_row ws = header_row).
    { unfold App.default_header_row, header_row. fold first_val.
      destruct first_val as [|c s]; simpl; [done |].
      by destruct (isdigit c). }
    by rewrite E.
  - unfold header_row.
    destruct first_val as [|c s]; simpl; [by split; [left |] |].
    destruct (isdigit c); simpl; split; try done; [by right | by intros [|]].
  - unfold header_row.
    destruct first_val as [|c s]; simpl; [by split; [|intros []] |].
    destruct (isdigit c); simpl; split; try done; by intros [].
  - intros Hd.
    assert (Hh : header_row = 0).
    { unfold header_row. rewrite Hd. by rewrite andb_false_r. }
    unfold names. rewrite Hh. simpl.
    destruct (App.max_row ws) as [|m]; [lia |].
    rewrite Nat.sub_0_r. simpl. rewrite Nat.sub_0_r.
    assert (Hn : Spec.cell_name (App.cell ws 1 1) = Some (strip first_val)).
    { pose proof (strip_starts_with_digit _ Hd) as Hs.
      unfold Spec.cell_name. unfold first_val in *. unfold App.str_or_empty in *.
      destruct (App.cell_truthy (App.cell ws 1 1)); [|done].
      apply truthy_true in Hs. by rewrite Hs. }
    by rewrite Hn.
Qed.

Lemma upload_without_known_header_witness :
  App.upload_file
    (Some ("names.xlsx",
           Spec.sheet_of_rows
             [[App.CStr "1 Gummy Bears"]; [App.CStr "  Sour Worms "];
              [App.CNone]; [App.CVal "42" true]]))
  = App.UploadOk ["1 Gummy Bears"; "Sour Worms"; "42"] 1 0.
Proof.
  refine (proj1 (upload_without_known_header "names.xlsx"
                   (Spec.sheet_of_rows
                      [[App.CStr "1 Gummy Bears"]; [App.CStr "  Sour Worms "];
                       [App.CNone]; [App.CVal "42" true]]) _ _ _)).
  - reflexivity.
  - intros col Hc. simpl in Hc. assert (col = 1) as -> by lia. reflexivity.
  - simpl. lia.
Defined.

(** C9, as stated, fails: the first cell is empty, so its first character
    is no digit, and yet the importer reports header row 0. *)
Lemma upload_empty_first_cell :
  let ws := Spec.sheet_of_rows [[App.CNone]; [App.CStr "Gummy Bears"]] in
  (∀ col, 1 ≤ col ≤ App.max_column ws → App.is_known_header ws col = false)
  ∧ Spec.starts_with_digit (App.str_or_empty (App.cell ws 1 1)) = false
  ∧ App.upload_file (Some ("names.xlsx", ws))
    = App.UploadOk ["Gummy Bears"] 1 0.
Proof.
  cbv zeta. split; [|split]; try reflexivity.
  intros col Hc. simpl in Hc. assert (col = 1) as -> by lia. reflexivity.
Qed.

(** *** The batch loop of the description generator *)

Lemma records_append_rows (output : option csv_file) (fieldnames : list string)
    (rows : list row) :
  default [] (Generate.append_rows output fieldnames rows)
  = default [] output ++ (writerow fieldnames <$> rows).
Proof. reflexivity. Qed.

Section Loop.

Variable fieldnames : list string.
Variable completed_skus : gset string.
Variable c : Generate.client.

Abbreviation step := (Generate.step fieldnames completed_skus c).
Abbreviation W := (fmap (writerow fieldnames)).
Abbreviation N := Config.SAVE_EVERY_N.

Lemma step_skipped (st : Generate.state) (ir : nat * row) :
  Spec.is_skipped completed_skus ir.2 = true →
  step st ir
  = {| Generate.out := Generate.out st; Generate.buffer := Generate.buffer st;
       Generate.processed := Generate.processed st;
       Generate.skipped := S (Generate.skipped st);
       Generate.errors := Generate.errors st;
       Generate.trace := Generate.trace st |}.
Proof.
  unfold Spec.is_skipped, Generate.step. intros H. by rewrite H.
Qed.

Lemma step_processed (st : Generate.state) (ir : nat * row) :
  Spec.is_skipped completed_skus ir.2 = false →
  let g := Generate.generate_description c ir.1 ir.2 in
  let buffer' := Generate.buffer st ++ [Generate.augment g ir.2] in
  let checkpoint := N <=? length buffer' in
  Generate.out (step st ir)
    = (if checkpoint then Generate.append_rows (Generate.out st) fieldnames buffer'
       else Generate.out st)
  ∧ Generate.buffer (step st ir) = (if checkpoint then [] else buffer')
  ∧ Generate.processed (step st ir) + Generate.errors (step st ir)
    = S (Generate.processed st + Generate.errors st)
  ∧ Generate.skipped (step st ir) = Generate.skipped st
  ∧ Generate.trace (step st ir)
    = Generate.trace st
      ++ [Generate.EvCall ir.1 (Generate.request_content ir.2); Generate.EvSleep].
Proof.
  unfold Spec.is_skipped, Generate.step. intros H. rewrite H. simpl.
  repeat split. destruct (Generate.generate_description c ir.1 ir.2); lia.
Qed.

Lemma loop_conserves (irows : list (nat * row)) (st : Generate.state) :
  ∃ flushed : list row,
    default [] (Generate.out (foldl step st irows))
    = default [] (Generate.out st) ++ W flushed
    ∧ flushed ++ Generate.buffer (foldl step st irows)
      = Generate.buffer st ++ Spec.outputs completed_skus c irows.
Proof.
  revert st. induction irows as [|ir irows IH]; intros st.
  - exists []. simpl. by rewrite !app_nil_r.
  - cbn [foldl]. destruct (IH (step st ir)) as (flushed & Hf & Hb).
    unfold Spec.outputs. cbn [omap list_omap].
    fold (Spec.outputs completed_skus c irows).
    destruct (Spec.is_skipped completed_skus ir.2) eqn:E.
    + exists flushed. rewrite (step_skipped st ir E) in Hf, Hb |- *. done.
    + destruct (step_processed st ir E) as (Ho & Hb' & _).
      rewrite Ho in Hf. rewrite Hb' in Hb.
      destruct (N <=? _).
      * exists ((Generate.buffer st
                 ++ [Generate.augment (Generate.generate_description c ir.1 ir.2) ir.2])
                ++ flushed).
        split.
        -- rewrite Hf. unfold Generate.append_rows. cbn [from_option]. unfold id.
           by rewrite !fmap_app, <- !app_assoc.
        -- rewrite <- !app_assoc, Hb. reflexivity.
      * exists flushed. split; [done |].
        rewrite Hb, <- app_assoc. done.
Qed.

Lemma loop_keeps_file (irows : list (nat * row)) (st : Generate.state) :
  is_Some (Generate.out st) → is_Some (Generate.out (foldl step st irows)).
Proof.
  revert st. induction irows as [|ir irows IH]; intros st Hs; [done |].
  cbn [foldl]. apply IH.
  destruct (Spec.is_skipped completed_skus ir.2) eqn:E.
  - by rewrite (step_skipped st ir E).
  - destruct (step_processed st ir E) as (Ho & _). rewrite Ho.
    destruct (N <=? _); [by eexists | done].
Qed.

Lemma loop_buffer_length (irows : list (nat * row)) (st : Generate.state) :
  length (Generate.buffer st) < N →
  length (Generate.buffer (foldl step st irows))
  = (length (Generate.buffer st)
     + length (Spec.outputs completed_skus c irows)) mod N.
Proof.
  revert st. induction irows as [|ir irows IH]; intros st Hlt.
  - simpl. rewrite Nat.add_0_r. symmetry. by apply Nat.mod_small.
  - cbn [foldl]. unfold Spec.outputs. cbn [omap list_omap].
    fold (Spec.outputs completed_skus c irows).
    destruct (Spec.is_skipped completed_skus ir.2) eqn:E.
    + rewrite (step_skipped st ir E). apply (IH {| Generate.out := _ |}). exact Hlt.
    + destruct (step_processed st ir E) as (_ & Hb & _).
      assert (Hlen : length (Generate.buffer (step st ir))
                     = S (length (Generate.buffer st)) mod N).
      { pose proof (length_app (Generate.buffer st)
                      [Generate.augment (Generate.generate_description c ir.1 ir.2) ir.2])
          as Hl1.
        cbn [length] in Hl1. rewrite Nat.add_1_r in Hl1.
        rewrite Hb, Hl1.
        destruct (N <=? S (length (Generate.buffer st))) eqn:El.
        - apply Nat.leb_le in El.
          replace (S (length (Generate.buffer st))) with N by lia.
          reflexivity.
        - apply Nat.leb_gt in El. rewrite Hl1. symmetry. by apply Nat.mod_small. }
      rewrite IH.
      * rewrite Hlen. cbn [length].
        rewrite Nat.Div0.add_mod_idemp_l. f_equal. lia.
      * rewrite Hlen. apply Nat.mod_upper_bound. unfold N. lia.
Qed.

Lemma loop_counts (irows : list (nat * row)) (st : Generate.state) :
  Generate.processed (foldl step st irows) + Generate.errors (foldl step st irows)
  = Generate.processed st + Generate.errors st
    + length (Spec.outputs completed_skus c irows)
  ∧ Generate.skipped (foldl step st irows)
    + length (Spec.outputs completed_skus c irows)
    = Generate.skipped st + length irows.
Proof.
  revert st. induction irows as [|ir irows IH]; intros st.
  - simpl. lia.
  - cbn [foldl]. unfold Spec.outputs. cbn [omap list_omap].
    fold (Spec.outputs completed_skus c irows).
    destruct (IH (step st ir)) as [IH1 IH2]. rewrite IH1.
    destruct (Spec.is_skipped completed_skus ir.2) eqn:E.
    + rewrite (step_skipped st ir E) in *. simpl in *. lia.
    + destruct (step_processed st ir E) as (_ & _ & Hc & Hs & _).
      cbn [length]. lia.
Qed.

Lemma loop_trace (irows : list (nat * row)) (st : Generate.state) :
  Generate.trace (foldl step st irows)
  = Generate.trace st ++ Spec.activity completed_skus irows.
Proof.
  revert st. induction irows as [|ir irows IH]; intros st.
  - simpl. by rewrite app_nil_r.
  - cbn [foldl]. rewrite IH. unfold Spec.activity. cbn [mbind list_bind].
    destruct (Spec.is_skipped completed_skus ir.2) eqn:E.
    + by rewrite (step_skipped st ir E).
    + destruct (step_processed st ir E) as (_ & _ & _ & _ & Ht).
      rewrite Ht, <- app_assoc. done.
Qed.

End Loop.

Lemma split_by_suffix_length {A} (x y whole : list A) :
  x ++ y = whole →
  x = take (length whole - length y) whole
  ∧ y = drop (length whole - length y) whole.
Proof.
  intros <-. rewrite length_app.
  replace (length x + length y - length y) with (length x) by lia.
  by rewrite take_app_length, drop_app_length.
Qed.

Lemma flushed_file (fieldnames : list string) (completed_skus : gset string)
    (c : Generate.client) (rows : list row) (output : option csv_file) :
  default []
    (Generate.out
       (Generate.flush fieldnames
          (Generate.loop_prefix (length rows) fieldnames completed_skus c
             rows output)))
  = default [] output
    ++ (writerow fieldnames
          <$> Spec.outputs completed_skus c (Generate.enumerate rows)).
Proof.
  destruct (loop_conserves fieldnames completed_skus c
              (take (length rows) (Generate.enumerate rows))
              (Generate.initial_state output)) as (fl & Hf' & Hb').
  fold (Generate.loop_prefix (length rows) fieldnames completed_skus c rows
          output) in Hf', Hb'.
  rewrite firstn_all2 in Hb'
    by (unfold Generate.enumerate; rewrite length_zip, length_seq; lia).
  change (Generate.out (Generate.initial_state output)) with output in Hf'.
  change (Generate.buffer (Generate.initial_state output)) with (@nil row) in Hb'.
  rewrite app_nil_l in Hb'. unfold Generate.flush.
  set (stf := Generate.loop_prefix (length rows) fieldnames completed_skus c
                rows output) in *.
  destruct (Generate.buffer stf) as [|r' b'] eqn:Eb.
  - rewrite Hf'. rewrite app_nil_r in Hb'. by rewrite Hb'.
  - cbn [Generate.out]. rewrite records_append_rows.
    rewrite Hf', <- Hb', fmap_app, <- app_assoc. done.
Qed.

(** C4: in the loop of [main] a processed row joins the buffer, and the
    buffer is appended to the output file and emptied exactly when it then
    holds [SAVE_EVERY_N] rows; so after the first [n]
    iterations, with [p = K * SAVE_EVERY_N + M] rows processed (not skipped)
    and [M < SAVE_EVERY_N], the buffer holds the last [M] of them, fewer
    than [SAVE_EVERY_N], and the file has grown by exactly the first
    [K * SAVE_EVERY_N]; after the last iteration the flush appends what the
    buffer still holds, so the file has grown by every processed row. *)
Theorem checkpoint_cycles (n : nat) (fieldnames : list string)
    (completed_skus : gset string) (c : Generate.client) (rows : list row)
    (output : option csv_file) :
  let st := Generate.loop_prefix n fieldnames completed_skus c rows output in
  let produced :=
    Spec.outputs completed_skus c (take n (Generate.enumerate rows)) in
  let p := Generate.processed st + Generate.errors st in
  let K := p / Config.SAVE_EVERY_N in
  let M := p mod Config.SAVE_EVERY_N in
  (∀ st0 ir,
     Spec.is_skipped completed_skus ir.2 = false →
     length (Generate.buffer st0) < Config.SAVE_EVERY_N →
     let buffer' :=
       Generate.buffer st0
       ++ [Generate.augment (Generate.generate_description c ir.1 ir.2) ir.2] in
     let st1 := Generate.step fieldnames completed_skus c st0 ir in
     (length buffer' = Config.SAVE_EVERY_N →
      Generate.out st1 = Generate.append_rows (Generate.out st0) fieldnames buffer'
      ∧ Generate.buffer st1 = [])
     ∧ (length buffer' < Config.SAVE_EVERY_N →
        Generate.out st1 = Generate.out st0 ∧ Generate.buffer st1 = buffer'))
  ∧ p = length produced
  ∧ length (Generate.buffer st) = M
  ∧ length (Generate.buffer st) < Config.SAVE_EVERY_N
  ∧ Generate.buffer st = drop (K * Config.SAVE_EVERY_N) produced
  ∧ default [] (Generate.out st)
    = default [] output
      ++ (writerow fieldnames <$> take (K * Config.SAVE_EVERY_N) produced)
  ∧ length (default [] (Generate.out st))
    = length (default [] output) + K * Config.SAVE_EVERY_N
  ∧ default []
      (Generate.out
         (Generate.flush fieldnames
            (Generate.loop_prefix (length rows) fieldnames completed_skus c
               rows output)))
    = default [] output
      ++ (writerow fieldnames
            <$> Spec.outputs completed_skus c (Generate.enumerate rows)).
Proof.
  intros st produced p K M.
  assert (HN : Config.SAVE_EVERY_N ≠ 0) by (unfold Config.SAVE_EVERY_N; lia).
  assert (Hp : p = length produced).
  { unfold p, st, Generate.loop_prefix.
    destruct (loop_counts fieldnames completed_skus c
                (take n (Generate.enumerate rows))
                (Generate.initial_state output)) as [H _].
    rewrite H. simpl. done. }
  assert (Hlen : length (Generate.buffer st) = M).
  { unfold M, st, Generate.loop_prefix. rewrite loop_buffer_length.
    - simpl length at 1. rewrite Nat.add_0_l. fold produced. by rewrite Hp.
    - simpl. unfold Config.SAVE_EVERY_N. lia. }
  assert (HM : M < Config.SAVE_EVERY_N) by (by apply Nat.mod_upper_bound).
  assert (HK : length produced - M = K * Config.SAVE_EVERY_N).
  { rewrite <- Hp. unfold K, M.
    pose proof (Nat.div_mod_eq p Config.SAVE_EVERY_N). lia. }
  destruct (loop_conserves fieldnames completed_skus c
              (take n (Generate.enumerate rows))
              (Generate.initial_state output)) as (flushed & Hf & Hb).
  fold (Generate.loop_prefix n fieldnames completed_skus c rows output) in Hf, Hb.
  fold st in Hf, Hb. fold produced in Hb. simpl in Hf, Hb.
  apply split_by_suffix_length in Hb as [Hfl Hbuf].
  rewrite Hlen, HK in Hfl, Hbuf.
  split.
  { intros st0 ir Hsk Hshort buffer' st1.
    destruct (step_processed fieldnames completed_skus c st0 ir Hsk)
      as (Ho & Hbf & _).
    fold buffer' in Ho, Hbf. fold st1 in Ho, Hbf. split; intros Hl.
    - rewrite Ho, Hbf.
      assert (E : (Config.SAVE_EVERY_N <=? length buffer') = true)
        by (apply Nat.leb_le; lia).
      by rewrite E.
    - rewrite Ho, Hbf.
      assert (E : (Config.SAVE_EVERY_N <=? length buffer') = false)
        by (apply Nat.leb_gt; lia).
      by rewrite E. }
  split; [done |]. split; [done |]. split; [lia |]. split; [done |].
  split; [by rewrite Hf, Hfl |]. split.
  - rewrite Hf, Hfl, length_app, length_fmap, length_take. f_equal. lia.
  - apply flushed_file.
Qed.

(** Twelve processed rows on a fresh file: one checkpoint of ten records
    after the header, two rows left in the buffer until the flush. *)
Example twelve_rows_one_checkpoint :
  let rows : list row :=
    (λ i, [("Variant SKU", PromptTemplate.str_nat i)]) <$> seq 0 12 in
  let fieldnames := Generate.output_fieldnames rows in
  let st := Generate.loop_prefix 12 fieldnames ∅
              (λ _ _, Generate.Message ["Sweet."]) rows (Some [fieldnames]) in
  length (default [] (Generate.out st)) = 1 + 10
  ∧ length (Generate.buffer st) = 2
  ∧ length (default [] (Generate.out (Generate.flush fieldnames st))) = 1 + 12.
Proof. vm_compute. repeat split. Qed.

(** *** Writing rows and reading them back *)

Lemma get_or_empty_default (r : dict) (k : string) :
  get_or_empty r k = get_default r k "".
Proof.
  unfold get_or_empty, get_default. destruct (get r k) as [v|]; [|done].
  by destruct v.
Qed.

Lemma zip_fmap_r {A B} (g : A → B) (l : list A) :
  zip l (g <$> l) = (λ k, (k, g k)) <$> l.
Proof. induction l as [|x l IH]; [done | cbn; by f_equal]. Qed.

Lemma get_fold_set (g : string → string) (l : list string) (d : dict)
    (k : string) :
  k ∈ l ∨ get d k = Some (g k) →
  get (foldl (λ d kv, set d kv.1 kv.2) d ((λ k, (k, g k)) <$> l)) k
  = Some (g k).
Proof.
  revert d. induction l as [|x l IH]; intros d H; simpl.
  - destruct H as [H | H]; [by apply elem_of_nil in H | done].
  - apply IH. destruct (decide (x = k)) as [-> | Hne].
    + right. apply get_set_eq.
    + destruct H as [H | H].
      * apply elem_of_cons in H as [-> | H]; [done | by left].
      * right. by rewrite get_set_ne.
Qed.

Lemma read_written (fieldnames : list string) (r : row) (k : string) :
  k ∈ fieldnames →
  get_default (of_pairs (zip fieldnames (writerow fieldnames r))) k ""
  = get_default r k "".
Proof.
  intros H. unfold writerow, of_pairs. rewrite zip_fmap_r.
  unfold get_default at 1.
  rewrite (get_fold_set (λ k, get_default r k "")); [done | by left].
Qed.

Lemma new_description_in_fieldnames (rows : list row) :
  "new_description" ∈ Generate.output_fieldnames rows.
Proof.
  unfold Generate.output_fieldnames.
  set (names := match rows with r :: _ => keys r | [] => [] end).
  assert (H : "new_description"
              ∈ (if contains names "new_description" then names
                 else names ++ ["new_description"])).
  { destruct (contains names "new_description") eqn:E.
    - by apply contains_elem_of.
    - apply elem_of_app. right. by left. }
  destruct (contains _ "generation_status"); [done |].
  apply elem_of_app. by left.
Qed.

Lemma generation_status_in_fieldnames (rows : list row) :
  "generation_status" ∈ Generate.output_fieldnames rows.
Proof.
  unfold Generate.output_fieldnames.
  destruct (contains _ "generation_status") eqn:E.
  - by apply contains_elem_of.
  - apply elem_of_app. right. by left.
Qed.

Lemma first_keys_in_fieldnames (r : row) (rows : list row) (k : string) :
  k ∈ keys r → k ∈ Generate.output_fieldnames (r :: rows).
Proof.
  intros H. unfold Generate.output_fieldnames.
  assert (H' : k ∈ (if contains (keys r) "new_description" then keys r
                    else keys r ++ ["new_description"])).
  { destruct (contains (keys r) "new_description"); [done |].
    apply elem_of_app. by left. }
  destruct (contains _ "generation_status"); [done |].
  apply elem_of_app. by left.
Qed.


Lemma augment_status (g : Generate.generated) (r : row) :
  get (Generate.augment g r) "generation_status"
  = Some (match g with
          | Generate.Returned _ => "success"
          | Generate.APIError e => "error: " +:+ e
          | Generate.OtherError e => "error: " +:+ e
          end).
Proof. destruct g; apply get_set_eq. Qed.

Lemma augment_description (g : Generate.generated) (r : row) :
  get (Generate.augment g r) "new_description"
  = Some (match g with
          | Generate.Returned description => description
          | _ => ""
          end).
Proof.
  destruct g; simpl; (rewrite get_set_ne; [apply get_set_eq | discriminate]).
Qed.

Lemma augment_other (g : Generate.generated) (r : row) (k : string) :
  k ≠ "new_description" → k ≠ "generation_status" →
  get (Generate.augment g r) k = get r k.
Proof.
  intros H1 H2. destruct g; simpl; by rewrite !get_set_ne.
Qed.

Lemma elem_of_enumerate (rows : list row) (i : nat) (r : row) :
  (i, r) ∈ Generate.enumerate rows ↔ rows !! i = Some r.
Proof.
  unfold Generate.enumerate. rewrite list_elem_of_lookup. split.
  - intros (j & Hj). apply lookup_zip_with_Some in Hj
      as (i' & r' & E & Hs & Hr). injection E as -> ->.
    apply lookup_seq in Hs as [-> _]. done.
  - intros H. exists i. apply lookup_zip_with_Some. exists i, r.
    split; [done |]. split; [|done].
    apply lookup_seq. split; [done |]. by eapply lookup_lt_Some.
Qed.

Lemma elem_of_outputs (completed_skus : gset string) (c : Generate.client)
    (irows : list (nat * row)) (r' : row) :
  r' ∈ Spec.outputs completed_skus c irows ↔
  ∃ i r, (i, r) ∈ irows
         ∧ (strip (get_or_empty r "Variant SKU") ∉ completed_skus)
         ∧ r' = Generate.augment (Generate.generate_description c i r) r.
Proof.
  unfold Spec.outputs. rewrite list_elem_of_omap. split.
  - intros ([i r] & Hin & H). simpl in H. unfold Spec.is_skipped in H.
    case_bool_decide; [discriminate |]. injection H as <-. by exists i, r.
  - intros (i & r & Hin & Hs & ->). exists (i, r). split; [done |].
    simpl. unfold Spec.is_skipped. by rewrite bool_decide_eq_false_2.
Qed.

Lemma main_done (a : Generate.args) (api_key : string) (f : csv_file)
    (output : option csv_file) (c : Generate.client) :
  api_key ≠ "" →
  let rows := Generate.limited_rows a f in
  let fieldnames := Generate.output_fieldnames rows in
  let resumed := Generate.handle_resume a fieldnames output in
  Generate.main a api_key (Some f) output c
  = Generate.Done
      (Generate.flush fieldnames
         (Generate.loop_prefix (length rows) fieldnames resumed.1 c rows
            resumed.2)).
Proof.
  intros Hk rows fieldnames resumed. apply truthy_true in Hk.
  unfold Generate.main. rewrite Hk. cbn [negb].
  fold rows. fold fieldnames. fold resumed. by destruct resumed.
Qed.

Lemma main_file (a : Generate.args) (api_key : string) (f : csv_file)
    (output : option csv_file) (c : Generate.client) :
  api_key ≠ "" →
  let rows := Generate.limited_rows a f in
  let fieldnames := Generate.output_fieldnames rows in
  let resumed := Generate.handle_resume a fieldnames output in
  ∃ st, Generate.main a api_key (Some f) output c = Generate.Done st
        ∧ default [] (Generate.out st)
          = default [] resumed.2
            ++ (writerow fieldnames
                  <$> Spec.outputs resumed.1 c (Generate.enumerate rows))
        ∧ Generate.trace st = Spec.activity resumed.1 (Generate.enumerate rows)
        ∧ Generate.processed st + Generate.errors st
          = length (Spec.outputs resumed.1 c (Generate.enumerate rows))
        ∧ Generate.skipped st
          + length (Spec.outputs resumed.1 c (Generate.enumerate rows))
          = length rows.
Proof.
  intros Hk rows fieldnames resumed. eexists. split; [by apply main_done |].
  fold rows. fold fieldnames. fold resumed.
  assert (Hall : take (length rows) (Generate.enumerate rows)
                 = Generate.enumerate rows).
  { apply firstn_all2. unfold Generate.enumerate.
    rewrite length_zip, length_seq. lia. }
  split; [apply flushed_file |].
  assert (E : ∀ st, Generate.trace (Generate.flush fieldnames st) = Generate.trace st
              ∧ Generate.processed (Generate.flush fieldnames st) = Generate.processed st
              ∧ Generate.errors (Generate.flush fieldnames st) = Generate.errors st
              ∧ Generate.skipped (Generate.flush fieldnames st) = Generate.skipped st).
  { intros st. unfold Generate.flush. by destruct (Generate.buffer st). }
  destruct (E (Generate.loop_prefix (length rows) fieldnames resumed.1 c rows
                 resumed.2)) as (-> & -> & -> & ->).
  unfold Generate.loop_prefix. rewrite Hall.
  rewrite loop_trace.
  destruct (loop_counts fieldnames resumed.1 c (Generate.enumerate rows)
              (Generate.initial_state resumed.2)) as [H1 H2].
  rewrite H1, H2. simpl. split; [done |]. split; [done |].
  unfold Generate.enumerate. rewrite length_zip, length_seq. lia.
Qed.

Lemma written_status (rows : list row) (g : Generate.generated) (r : row) :
  Spec.status_of (Generate.output_fieldnames rows)
    (writerow (Generate.output_fieldnames rows) (Generate.augment g r))
  = match g with
    | Generate.Returned _ => "success"
    | Generate.APIError e => "error: " +:+ e
    | Generate.OtherError e => "error: " +:+ e
    end.
Proof.
  unfold Spec.status_of.
  rewrite read_written by apply generation_status_in_fieldnames.
  unfold get_default. by rewrite augment_status.
Qed.

(** C10: on a rectangular input, and a rectangular output file where
    --resume reads it, a record whose key is in the completed set is never
    written: the run appends to the output file exactly the augmented rows
    of the records it does not skip, in input order; every appended record
    has "generation_status" equal to "success" or starting with "error: ";
    and the trace of the run holds one remote call and one sleep per record
    that is not skipped, nothing for a skipped one. *)
Theorem skipped_rows_never_written (a : Generate.args) (api_key : string)
    (f : csv_file) (output : option csv_file) (c : Generate.client) :
  api_key ≠ "" →
  Spec.rectangular f →
  Spec.resumable a output →
  let rows := Generate.limited_rows a f in
  let fieldnames := Generate.output_fieldnames rows in
  let completed_skus := (Generate.handle_resume a fieldnames output).1 in
  let output' := (Generate.handle_resume a fieldnames output).2 in
  let written := Spec.outputs completed_skus c (Generate.enumerate rows) in
  ∃ st, Generate.main a api_key (Some f) output c = Generate.Done st
    ∧ default [] (Generate.out st)
      = default [] output' ++ (writerow fieldnames <$> written)
    ∧ (∀ r', r' ∈ written →
         ∃ i r, rows !! i = Some r
                ∧ (strip (get_or_empty r "Variant SKU") ∉ completed_skus)
                ∧ r' = Generate.augment (Generate.generate_description c i r) r)
    ∧ (∀ r', r' ∈ written →
         Spec.status_of fieldnames (writerow fieldnames r') = "success"
         ∨ ∃ e, Spec.status_of fieldnames (writerow fieldnames r')
                = "error: " +:+ e)
    ∧ Generate.trace st = Spec.activity completed_skus (Generate.enumerate rows)
    ∧ (∀ i r st0, strip (get_or_empty r "Variant SKU") ∈ completed_skus →
         let st1 := Generate.step fieldnames completed_skus c st0 (i, r) in
         Generate.out st1 = Generate.out st0
         ∧ Generate.buffer st1 = Generate.buffer st0
         ∧ Generate.trace st1 = Generate.trace st0
         ∧ Generate.skipped st1 = S (Generate.skipped st0)).
Proof.
  intros Hk _ _ rows fieldnames completed_skus output' written.
  destruct (main_file a api_key f output c Hk) as (st & Hm & Hf & Ht & _).
  exists st. split; [done |]. split; [done |]. split; [|split; [|split]].
  - intros r' Hr. apply elem_of_outputs in Hr as (i & r & Hin & Hs & ->).
    exists i, r. by rewrite <- elem_of_enumerate.
  - intros r' Hr. apply elem_of_outputs in Hr as (i & r & _ & _ & ->).
    unfold fieldnames. rewrite written_status.
    destruct (Generate.generate_description c i r); eauto.
  - done.
  - intros i r st0 Hs st1. unfold st1.
    rewrite step_skipped; [done |].
    unfold Spec.is_skipped. by apply bool_decide_eq_true_2.
Qed.

Lemma skipped_rows_never_written_witness :
  ∃ st,
    Generate.main {| Generate.arg_limit := None; Generate.arg_resume := true |}
      "sk-test"
      (Some [["Variant SKU"; "Title"]; ["A"; "Candy"]; ["B"; "Bar"]])
      (Some [["Variant SKU"; "Title"; "new_description"; "generation_status"];
             ["A"; "Candy"; "Sweet."; "success"]])
      (λ _ _, Generate.RaiseAPIError "overloaded")
    = Generate.Done st
    ∧ Generate.out st
      = Some [["Variant SKU"; "Title"; "new_description"; "generation_status"];
              ["A"; "Candy"; "Sweet."; "success"];
              ["B"; "Bar"; ""; "error: overloaded"]]
    ∧ Generate.skipped st = 1.
Proof.
  destruct (skipped_rows_never_written
              {| Generate.arg_limit := None; Generate.arg_resume := true |}
              "sk-test"
              [["Variant SKU"; "Title"]; ["A"; "Candy"]; ["B"; "Bar"]]
              (Some [["Variant SKU"; "Title"; "new_description"; "generation_status"];
                     ["A"; "Candy"; "Sweet."; "success"]])
              (λ _ _, Generate.RaiseAPIError "overloaded"))
    as (st & Hm & _); [discriminate | rectangular_file | resumable_file |].
  exists st. split; [exact Hm |].
  vm_compute in Hm. injection Hm as <-. split; reflexivity.
Defined.

(** C5: on a rectangular input, and a rectangular output file where
    --resume reads it: when the remote generation call of a row that is not
    skipped raises a caught exception with message [e], the row gets
    "generation_status" "error: e" and an empty "new_description", the run
    still completes, its record is in the output file at the end, and so
    are the records of all later rows that are not skipped. *)
Theorem error_rows_recorded (a : Generate.args) (api_key : string)
    (f : csv_file) (output : option csv_file) (c : Generate.client)
    (i : nat) (r : row) (e : string) :
  api_key ≠ "" →
  Spec.rectangular f →
  Spec.resumable a output →
  let rows := Generate.limited_rows a f in
  let fieldnames := Generate.output_fieldnames rows in
  let completed_skus := (Generate.handle_resume a fieldnames output).1 in
  rows !! i = Some r →
  strip (get_or_empty r "Variant SKU") ∉ completed_skus →
  Generate.generate_description c i r = Generate.APIError e
  ∨ Generate.generate_description c i r = Generate.OtherError e →
  let r' := Generate.augment (Generate.generate_description c i r) r in
  get r' "generation_status" = Some ("error: " +:+ e)
  ∧ get r' "new_description" = Some ""
  ∧ ∃ st, Generate.main a api_key (Some f) output c = Generate.Done st
      ∧ writerow fieldnames r' ∈ default [] (Generate.out st)
      ∧ Spec.status_of fieldnames (writerow fieldnames r') = "error: " +:+ e
      ∧ 1 ≤ Generate.errors st + Generate.processed st
      ∧ (∀ j r2, i < j → rows !! j = Some r2 →
           strip (get_or_empty r2 "Variant SKU") ∉ completed_skus →
           writerow fieldnames
             (Generate.augment (Generate.generate_description c j r2) r2)
           ∈ default [] (Generate.out st)).
Proof.
  intros Hk _ _ rows fieldnames completed_skus Hi Hs Hg r'.
  assert (Hst : get r' "generation_status" = Some ("error: " +:+ e)).
  { unfold r'. rewrite augment_status. by destruct Hg as [-> | ->]. }
  assert (Hd : get r' "new_description" = Some "").
  { unfold r'. rewrite augment_description. by destruct Hg as [-> | ->]. }
  split; [done |]. split; [done |].
  destruct (main_file a api_key f output c Hk) as (st & Hm & Hf & _ & Hc & _).
  fold rows fieldnames completed_skus in Hf, Hc.
  assert (Hin : ∀ j r2, rows !! j = Some r2 →
            strip (get_or_empty r2 "Variant SKU") ∉ completed_skus →
            Generate.augment (Generate.generate_description c j r2) r2
            ∈ Spec.outputs completed_skus c (Generate.enumerate rows)).
  { intros j r2 Hj Hs2. apply elem_of_outputs. exists j, r2.
    by rewrite elem_of_enumerate. }
  exists st. split; [done |]. split; [|split; [|split]].
  - rewrite Hf. apply elem_of_app. right. apply list_elem_of_fmap_2. by apply Hin.
  - unfold fieldnames, r'. rewrite written_status. by destruct Hg as [-> | ->].
  - pose proof (Hin i r Hi Hs) as H.
    destruct (Spec.outputs completed_skus c (Generate.enumerate rows));
      [by apply elem_of_nil in H | simpl in Hc; lia].
  - intros j r2 _ Hj Hs2. rewrite Hf. apply elem_of_app. right.
    apply list_elem_of_fmap_2. by apply Hin.
Qed.

Lemma error_rows_recorded_witness :
  let header := ["Variant SKU"; "Title"; "new_description"; "generation_status"] in
  let r' := Generate.augment (Generate.APIError "overloaded")
              [("Variant SKU", "A"); ("Title", "Candy")] in
  get r' "generation_status" = Some "error: overloaded"
  ∧ get r' "new_description" = Some ""
  ∧ ∃ st,
      Generate.main {| Generate.arg_limit := None; Generate.arg_resume := false |}
        "sk-test"
        (Some [["Variant SKU"; "Title"]; ["A"; "Candy"]; ["B"; "Bar"]])
        None
        (λ i _, match i with
                | 0 => Generate.RaiseAPIError "overloaded"
                | _ => Generate.Message ["Sweet."]
                end)
      = Generate.Done st
      ∧ writerow header r' ∈ default [] (Generate.out st)
      ∧ Spec.status_of header (writerow header r') = "error: overloaded".
Proof.
  cbv zeta.
  pose proof (error_rows_recorded
                {| Generate.arg_limit := None; Generate.arg_resume := false |}
                "sk-test"
                [["Variant SKU"; "Title"]; ["A"; "Candy"]; ["B"; "Bar"]]
                None
                (λ i _, match i with
                        | 0 => Generate.RaiseAPIError "overloaded"
                        | _ => Generate.Message ["Sweet."]
                        end)
                0 [("Variant SKU", "A"); ("Title", "Candy")] "overloaded")
    as H.
  cbv zeta in H.
  destruct H as (H1 & H2 & st & Hm & Hin & Hst & _).
  - discriminate.
  - rectangular_file.
  - resumable_file.
  - reflexivity.
  - exact (not_elem_of_empty (C := gset string) _).
  - left. reflexivity.
  - split; [exact H1 |]. split; [exact H2 |].
    exists st. split; [exact Hm |]. split; [exact Hin | exact Hst].
Defined.

(** *** Resuming a run *)





Lemma main_keeps_file (a : Generate.args) (api_key : string) (f : csv_file)
    (output : option csv_file) (c : Generate.client) (st : Generate.state) :
  api_key ≠ "" →
  Generate.main a api_key (Some f) output c = Generate.Done st →
  is_Some (Generate.handle_resume a
             (Generate.output_fieldnames (Generate.limited_rows a f)) output).2 →
  is_Some (Generate.out st).
Proof.
  intros Hk Hm Hs. rewrite (main_done a api_key f output c Hk) in Hm.
  injection Hm as <-. unfold Generate.flush.
  destruct (Generate.buffer _); [|by eexists].
  unfold Generate.loop_prefix. by apply loop_keeps_file.
Qed.

Lemma writerow_length (fieldnames : list string) (r : row) :
  length (writerow fieldnames r) = length fieldnames.
Proof. unfold writerow. apply length_fmap. Qed.

(** Appending written records to a rectangular file under its own header
    keeps it rectangular. *)
Lemma rectangular_append (fieldnames : list string) (recs : list record)
    (rows : list row) :
  Spec.rectangular (fieldnames :: recs) →
  Spec.rectangular (fieldnames :: recs ++ (writerow fieldnames <$> rows)).
Proof.
  cbn [Spec.rectangular]. intros H. apply Forall_app. split; [done |].
  apply Forall_fmap, Forall_true. intros r. right. apply writerow_length.
Qed.




(** C3: evaluation of [main] where the claim fails.  With --resume and no
    output file the detector returns the empty set, but no header is
    written: the file the run leaves starts with a data record.  Without
    --resume the same run writes the header first. *)
Lemma resume_without_file_writes_no_header :
  let input := [["Variant SKU"; "Title"]; ["A"; "Candy"]] in
  let header := ["Variant SKU"; "Title"; "new_description"; "generation_status"] in
  let c : Generate.client := λ _ _, Generate.Message ["Sweet."] in
  Generate.load_completed_skus None = ∅
  ∧ Generate.output_fieldnames (Generate.load_input_csv input) = header
  ∧ (∃ st, Generate.main
             {| Generate.arg_limit := None; Generate.arg_resume := true |}
             "sk-test" (Some input) None c = Generate.Done st
           ∧ Generate.out st = Some [["A"; "Candy"; "Sweet."; "success"]])
  ∧ (∃ st, Generate.main
             {| Generate.arg_limit := None; Generate.arg_resume := false |}
             "sk-test" (Some input) None c = Generate.Done st
           ∧ Generate.out st
             = Some [header; ["A"; "Candy"; "Sweet."; "success"]]).
Proof.
  cbv zeta. split; [reflexivity |]. split; [reflexivity |].
  split; eexists; (split; [vm_compute; reflexivity | reflexivity]).
Qed.

(** A run without --resume on a rectangular input and an absent output
    file writes the header first, then the records of the rows it
    processed. *)
Theorem fresh_run_writes_header (limit : option Z) (api_key : string)
    (f : csv_file) (c : Generate.client) :
  api_key ≠ "" →
  Spec.rectangular f →
  let a := {| Generate.arg_limit := limit; Generate.arg_resume := false |} in
  let rows := Generate.limited_rows a f in
  let fieldnames := Generate.output_fieldnames rows in
  ∃ st, Generate.main a api_key (Some f) None c = Generate.Done st
        ∧ Generate.out st
          = Some (fieldnames
                  :: (writerow fieldnames
                        <$> Spec.outputs ∅ c (Generate.enumerate rows))).
Proof.
  intros Hk _ a rows fieldnames.
  destruct (main_file a api_key f None c Hk) as (st & Hm & Hf & _).
  exists st. split; [done |].
  destruct (main_keeps_file a api_key f None c st Hk Hm) as [x Hx];
    [by eexists |].
  rewrite Hx in Hf |- *. simpl in Hf. by rewrite Hf.
Qed.

Lemma fresh_run_writes_header_witness :
  ∃ st,
    Generate.main {| Generate.arg_limit := Some 1%Z; Generate.arg_resume := false |}
      "sk-test"
      (Some [["Variant SKU"; "Title"]; ["A"; "Candy"]; ["B"; "Bar"]])
      None (λ _ _, Generate.Message ["Sweet."])
    = Generate.Done st
    ∧ Generate.out st
      = Some [["Variant SKU"; "Title"; "new_description"; "generation_status"];
              ["A"; "Candy"; "Sweet."; "success"]].
Proof.
  apply (fresh_run_writes_header (Some 1%Z) "sk-test"
           [["Variant SKU"; "Title"]; ["A"; "Candy"]; ["B"; "Bar"]]
           (λ _ _, Generate.Message ["Sweet."])).
  - discriminate.
  - rectangular_file.
Defined.

(** A run with --resume on a rectangular input and an absent output file
    finds nothing completed and leaves a file that holds the records of the
    processed rows only: no header record is written. *)
Theorem resume_run_writes_no_header (limit : option Z) (api_key : string)
    (f : csv_file) (c : Generate.client) :
  api_key ≠ "" →
  Spec.rectangular f →
  let a := {| Generate.arg_limit := limit; Generate.arg_resume := true |} in
  let rows := Generate.limited_rows a f in
  let fieldnames := Generate.output_fieldnames rows in
  Generate.load_completed_skus None = ∅
  ∧ ∃ st, Generate.main a api_key (Some f) None c = Generate.Done st
          ∧ default [] (Generate.out st)
            = (writerow fieldnames
                 <$> Spec.outputs ∅ c (Generate.enumerate rows)).
Proof.
  intros Hk _ a rows fieldnames. split; [done |].
  destruct (main_file a api_key f None c Hk) as (st & Hm & Hf & _).
  exists st. split; [done |]. exact Hf.
Qed.

Lemma resume_run_writes_no_header_witness :
  Generate.load_completed_skus None = ∅
  ∧ ∃ st,
      Generate.main {| Generate.arg_limit := None; Generate.arg_resume := true |}
        "sk-test" (Some [["Variant SKU"; "Title"]; ["A"; "Candy"]])
        None (λ _ _, Generate.Message ["Sweet."])
      = Generate.Done st
      ∧ default [] (Generate.out st) = [["A"; "Candy"; "Sweet."; "success"]].
Proof.
  apply (resume_run_writes_no_header None "sk-test"
           [["Variant SKU"; "Title"]; ["A"; "Candy"]]
           (λ _ _, Generate.Message ["Sweet."])).
  - discriminate.
  - rectangular_file.
Defined.

(* ===================================================================== *)
(** ** Further properties of the description generator                    *)
(* ===================================================================== *)

(** *** Set-up, counters and the limit *)


Lemma activity_counts (completed_skus : gset string) (c : Generate.client)
    (irows : list (nat * row)) :
  Spec.calls_in (Spec.activity completed_skus irows)
  = length (Spec.outputs completed_skus c irows)
  ∧ Spec.sleeps_in (Spec.activity completed_skus irows)
    = length (Spec.outputs completed_skus c irows)
  ∧ length (Spec.activity completed_skus irows)
    = 2 * length (Spec.outputs completed_skus c irows).
Proof.
  unfold Spec.calls_in, Spec.sleeps_in, Spec.activity, Spec.outputs.
  induction irows as [|ir irows (IH1 & IH2 & IH3)]; [done |].
  cbn [mbind list_bind omap list_omap].
  destruct (Spec.is_skipped completed_skus ir.2); cbn [app].
  - done.
  - cbn [List.filter Spec.is_call negb length]. rewrite IH1, IH2, IH3.
    repeat split; lia.
Qed.

(** On a rectangular input, and a rectangular output file where --resume
    reads it, every row of the (limited) input is counted once, as
    processed, failed or skipped; each row that is not skipped costs
    exactly one remote call and one sleep, a skipped row none. *)
Theorem main_counters (a : Generate.args) (api_key : string) (f : csv_file)
    (output : option csv_file) (c : Generate.client) :
  api_key ≠ "" →
  Spec.rectangular f →
  Spec.resumable a output →
  ∃ st, Generate.main a api_key (Some f) output c = Generate.Done st
    ∧ Generate.processed st + Generate.errors st + Generate.skipped st
      = length (Generate.limited_rows a f)
    ∧ Spec.calls_in (Generate.trace st)
      = Generate.processed st + Generate.errors st
    ∧ Spec.sleeps_in (Generate.trace st)
      = Generate.processed st + Generate.errors st
    ∧ length (Generate.trace st)
      = 2 * (Generate.processed st + Generate.errors st).
Proof.
  intros Hk _ _.
  destruct (main_file a api_key f output c Hk) as (st & Hm & _ & Ht & Hp & Hs).
  exists st. split; [done |]. rewrite Ht, Hp.
  destruct (activity_counts
              (Generate.handle_resume a
                 (Generate.output_fieldnames (Generate.limited_rows a f))
                 output).1 c
              (Generate.enumerate (Generate.limited_rows a f)))
    as (H1 & H2 & H3).
  rewrite H1, H2, H3. repeat split. lia.
Qed.

Lemma main_counters_witness :
  ∃ st,
    Generate.main {| Generate.arg_limit := None; Generate.arg_resume := true |}
      "sk-test"
      (Some [["Variant SKU"; "Title"]; ["A"; "Candy"]; ["B"; "Bar"];
             ["C"; "Drops"]])
      (Some [["Variant SKU"; "Title"; "new_description"; "generation_status"];
             ["A"; "Candy"; "Sweet."; "success"]])
      (λ i _, match i with
              | 1 => Generate.RaiseAPIError "overloaded"
              | _ => Generate.Message ["Sour."]
              end)
    = Generate.Done st
    ∧ Generate.processed st + Generate.errors st + Generate.skipped st = 3
    ∧ Spec.calls_in (Generate.trace st)
      = Generate.processed st + Generate.errors st
    ∧ Spec.sleeps_in (Generate.trace st)
      = Generate.processed st + Generate.errors st
    ∧ length (Generate.trace st)
      = 2 * (Generate.processed st + Generate.errors st).
Proof.
  apply (main_counters
           {| Generate.arg_limit := None; Generate.arg_resume := true |}
           "sk-test"
           [["Variant SKU"; "Title"]; ["A"; "Candy"]; ["B"; "Bar"];
            ["C"; "Drops"]]
           (Some [["Variant SKU"; "Title"; "new_description"; "generation_status"];
                  ["A"; "Candy"; "Sweet."; "success"]])).
  - discriminate.
  - rectangular_file.
  - resumable_file.
Defined.

(** With --limit n for a positive n the run works on the first n rows of
    the input only: on a rectangular input, and a rectangular output file
    where --resume reads it, it counts min(n, rows) rows and makes at most n
    remote calls. *)
Theorem limit_bounds_run (a : Generate.args) (api_key : string) (f : csv_file)
    (output : option csv_file) (c : Generate.client) (n : Z) :
  api_key ≠ "" →
  Spec.rectangular f →
  Spec.resumable a output →
  Generate.arg_limit a = Some n →
  (0 < n)%Z →
  Generate.limited_rows a f = take (Z.to_nat n) (Generate.load_input_csv f)
  ∧ ∃ st, Generate.main a api_key (Some f) output c = Generate.Done st
      ∧ Generate.processed st + Generate.errors st + Generate.skipped st
        = Nat.min (Z.to_nat n) (length (Generate.load_input_csv f))
      ∧ Spec.calls_in (Generate.trace st) ≤ Z.to_nat n.
Proof.
  intros Hk _ _ Hl Hn.
  assert (E : Generate.limited_rows a f
              = take (Z.to_nat n) (Generate.load_input_csv f)).
  { unfold Generate.limited_rows, Generate.slice_to. rewrite Hl.
    destruct (n =? 0)%Z eqn:E0; [lia |].
    destruct (0 <=? n)%Z eqn:E1; [done | lia]. }
  split; [done |].
  destruct (main_file a api_key f output c Hk) as (st & Hm & _ & Ht & Hp & Hs).
  exists st. split; [done |]. rewrite Ht.
  destruct (activity_counts
              (Generate.handle_resume a
                 (Generate.output_fieldnames (Generate.limited_rows a f))
                 output).1 c
              (Generate.enumerate (Generate.limited_rows a f)))
    as (H1 & _).
  rewrite H1. rewrite E, length_take in Hs. rewrite E in Hp |- *. lia.
Qed.

Lemma limit_bounds_run_witness :
  ∃ st,
    Generate.main {| Generate.arg_limit := Some 2%Z; Generate.arg_resume := false |}
      "sk-test"
      (Some [["Variant SKU"]; ["A"]; ["B"]; ["C"]; ["D"]]) None
      (λ _ _, Generate.Message ["Sweet."])
    = Generate.Done st
    ∧ Generate.processed st + Generate.errors st + Generate.skipped st = 2
    ∧ Spec.calls_in (Generate.trace st) ≤ 2.
Proof.
  refine (proj2 (limit_bounds_run
                   {| Generate.arg_limit := Some 2%Z; Generate.arg_resume := false |}
                   "sk-test" [["Variant SKU"]; ["A"]; ["B"]; ["C"]; ["D"]]
                   None (λ _ _, Generate.Message ["Sweet."]) 2%Z _ _ _ _ _)).
  - discriminate.
  - rectangular_file.
  - resumable_file.
  - reflexivity.
  - lia.
Defined.

(** The edges of --limit: 0 is no limit at all (the whole run is the run
    without --limit), and a negative n leaves out the last |n| rows. *)
Theorem limit_zero_and_negative (resume : bool) (f : csv_file) :
  (∀ api_key input output c,
     Generate.main {| Generate.arg_limit := Some 0%Z; Generate.arg_resume := resume |}
       api_key input output c
     = Generate.main {| Generate.arg_limit := None; Generate.arg_resume := resume |}
         api_key input output c)
  ∧ (∀ n, (n < 0)%Z →
       Generate.limited_rows
         {| Generate.arg_limit := Some n; Generate.arg_resume := resume |} f
       = take (length (Generate.load_input_csv f) - Z.to_nat (- n))
              (Generate.load_input_csv f)).
Proof.
  split.
  - intros api_key input output c. reflexivity.
  - intros n Hn. unfold Generate.limited_rows, Generate.slice_to. simpl.
    destruct (n =? 0)%Z eqn:E0; [lia |].
    destruct (0 <=? n)%Z eqn:E1; [lia | done].
Qed.

(** An input without data records: a run without --resume on an absent
    output file makes no remote call and leaves a file that holds only a
    header, made of the two added fields. *)
Theorem empty_input_run (limit : option Z) (api_key : string) (f : csv_file)
    (c : Generate.client) :
  api_key ≠ "" →
  Generate.load_input_csv f = [] →
  Generate.main {| Generate.arg_limit := limit; Generate.arg_resume := false |}
    api_key (Some f) None c
  = Generate.Done
      {| Generate.out := Some [["new_description"; "generation_status"]];
         Generate.buffer := []; Generate.processed := 0;
         Generate.skipped := 0; Generate.errors := 0; Generate.trace := [] |}.
Proof.
  intros Hk He. rewrite main_done by done.
  assert (E : Generate.limited_rows
                {| Generate.arg_limit := limit; Generate.arg_resume := false |} f
              = []).
  { unfold Generate.limited_rows, Generate.slice_to. rewrite He.
    cbn [Generate.arg_limit].
    destruct limit as [n|]; [|done].
    destruct (n =? 0)%Z; [done |]. destruct (0 <=? n)%Z; apply take_nil. }
  rewrite E. reflexivity.
Qed.

Lemma empty_input_run_witness :
  Generate.main {| Generate.arg_limit := None; Generate.arg_resume := false |}
    "sk-test" (Some [["Variant SKU"; "Title"]; []]) None
    (λ _ _, Generate.Message ["Sweet."])
  = Generate.Done
      {| Generate.out := Some [["new_description"; "generation_status"]];
         Generate.buffer := []; Generate.processed := 0;
         Generate.skipped := 0; Generate.errors := 0; Generate.trace := [] |}.
Proof.
  apply (empty_input_run None "sk-test" [["Variant SKU"; "Title"]; []]).
  - discriminate.
  - reflexivity.
Defined.



(** *** Keys of rows and the header of the output file *)

Lemma contains_false (l : list string) (k : string) :
  contains l k = false ↔ k ∉ l.
Proof.
  rewrite <- contains_elem_of. by destruct (contains l k).
Qed.

Lemma keys_set (d : dict) (k v : string) :
  keys (set d k v) = if contains (keys d) k then keys d else keys d ++ [k].
Proof.
  unfold keys, contains. induction d as [|[k' v'] d IH]; [done |].
  cbn [set fmap list_fmap fst existsb].
  rewrite (String.eqb_sym k k').
  destruct (String.eqb k' k); cbn [orb fmap list_fmap fst]; [done |].
  rewrite IH. by destruct (existsb _ _).
Qed.

Lemma keys_fold_set (l : list (string * string)) (d : dict) :
  keys (foldl (λ d kv, set d kv.1 kv.2) d l)
  = foldl (λ ks k, if contains ks k then ks else ks ++ [k]) (keys d) l.*1.
Proof.
  revert d. induction l as [|[k v] l IH]; intros d; [done |].
  cbn [foldl fmap list_fmap fst snd]. by rewrite IH, keys_set.
Qed.

Lemma keys_of_pairs (l : list (string * string)) :
  keys (of_pairs l) = Spec.distinct_keys l.*1.
Proof. unfold of_pairs, Spec.distinct_keys. by rewrite keys_fold_set. Qed.

Lemma NoDup_fold_add (names ks : list string) :
  NoDup ks →
  NoDup (foldl (λ ks k, if contains ks k then ks else ks ++ [k]) ks names).
Proof.
  revert ks. induction names as [|k names IH]; intros ks H; [done |].
  cbn [foldl]. apply IH. destruct (contains ks k) eqn:E; [done |].
  apply contains_false in E. apply NoDup_app. split; [done |].
  split; [|apply NoDup_singleton].
  intros x Hx Hx'. apply list_elem_of_singleton in Hx'. by subst.
Qed.

Lemma fold_add_NoDup (names ks : list string) :
  NoDup (ks ++ names) →
  foldl (λ ks k, if contains ks k then ks else ks ++ [k]) ks names = ks ++ names.
Proof.
  revert ks. induction names as [|k names IH]; intros ks H.
  - by rewrite app_nil_r.
  - cbn [foldl].
    assert (Hk : contains ks k = false).
    { apply contains_false. apply NoDup_app in H as (_ & H & _).
      intros Hin. apply (H k Hin). by left. }
    rewrite Hk, IH; [by rewrite <- app_assoc |].
    by rewrite <- app_assoc.
Qed.

Lemma fold_set_NoDup (l : list (string * string)) (d : dict) :
  NoDup (keys d ++ l.*1) →
  foldl (λ d kv, set d kv.1 kv.2) d l = d ++ l.
Proof.
  revert d. induction l as [|[k v] l IH]; intros d H.
  - by rewrite app_nil_r.
  - cbn [foldl fst snd].
    assert (Hs : set d k v = d ++ [(k, v)]).
    { assert (Hk : k ∉ keys d).
      { cbn [fmap list_fmap fst] in H. apply NoDup_app in H as (_ & H & _).
        intros Hin. apply (H k Hin). by left. }
      clear -Hk. unfold keys in Hk. induction d as [|[k' v'] d IHd]; [done |].
      cbn [set]. apply not_elem_of_cons in Hk as [Hne Hk].
      destruct (String.eqb k' k) eqn:E.
      - apply String.eqb_eq in E. by subst.
      - by rewrite IHd. }
    rewrite Hs, IH; [by rewrite <- app_assoc |].
    unfold keys. rewrite fmap_app. cbn [fmap list_fmap fst] in H |- *.
    by rewrite <- app_assoc.
Qed.

Lemma of_pairs_NoDup (l : list (string * string)) :
  NoDup l.*1 → of_pairs l = l.
Proof. intros H. unfold of_pairs. by rewrite fold_set_NoDup. Qed.

Lemma get_not_key (d : dict) (k : string) : k ∉ keys d → get d k = None.
Proof.
  unfold keys. induction d as [|[k' v'] d IH]; [done |].
  cbn [fmap list_fmap fst]. intros H. apply not_elem_of_cons in H as [Hne H].
  cbn [get]. destruct (String.eqb k' k) eqn:E; [|by apply IH].
  apply String.eqb_eq in E. by subst.
Qed.

Lemma DictReader_keys (f : csv_file) (r : row) :
  r ∈ DictReader f → NoDup (keys r).
Proof.
  destruct f as [|h recs]; [by intros H%elem_of_nil |].
  unfold DictReader. intros (rec & -> & _)%list_elem_of_fmap.
  rewrite keys_of_pairs. unfold Spec.distinct_keys.
  apply NoDup_fold_add, NoDup_nil_2.
Qed.

Lemma input_rows_keys (f : csv_file) (r : row) :
  Spec.rectangular f →
  r ∈ Generate.load_input_csv f →
  keys r = Spec.distinct_keys (hd [] f) ∧ NoDup (keys r).
Proof.
  intros Hrect Hr.
  assert (Hn : NoDup (keys r)) by (by eapply DictReader_keys).
  destruct f as [|h recs]; [by apply elem_of_nil in Hr |].
  unfold Generate.load_input_csv, DictReader in Hr.
  apply list_elem_of_fmap in Hr as (rec & -> & Hrec).
  apply list_elem_of_filter in Hrec as [Hne Hrec].
  cbn [Spec.rectangular] in Hrect. rewrite Forall_forall in Hrect.
  destruct (Hrect rec Hrec) as [-> | Hlen]; [done |].
  split; [|done]. rewrite keys_of_pairs. by rewrite fst_zip by lia.
Qed.

(** The rows read from a rectangular file all carry the same keys, in the
    same order and without repetition: the header's field names in the
    order of their first occurrence (the header itself when it has no
    repeated name). *)
Theorem input_rows_share_keys (f : csv_file) (r : row) :
  Spec.rectangular f →
  r ∈ Generate.load_input_csv f →
  keys r = Spec.distinct_keys (hd [] f)
  ∧ NoDup (keys r)
  ∧ (NoDup (hd [] f) → keys r = hd [] f).
Proof.
  intros Hrect Hr.
  assert (Hn : NoDup (keys r)) by (by eapply DictReader_keys).
  destruct f as [|h recs]; [by apply elem_of_nil in Hr |].
  unfold Generate.load_input_csv, DictReader in Hr.
  apply list_elem_of_fmap in Hr as (rec & -> & Hrec).
  apply list_elem_of_filter in Hrec as [Hne Hrec].
  cbn [Spec.rectangular] in Hrect. rewrite Forall_forall in Hrect.
  destruct (Hrect rec Hrec) as [-> | Hlen]; [done |].
  assert (E : keys (of_pairs (zip h rec)) = Spec.distinct_keys h).
  { rewrite keys_of_pairs. by rewrite fst_zip by lia. }
  cbn [hd]. split; [done |]. split; [done |].
  intros Hh. rewrite E. unfold Spec.distinct_keys.
  by rewrite fold_add_NoDup.
Qed.

Lemma input_rows_share_keys_witness :
  keys (of_pairs (zip ["Variant SKU"; "Title"; "Title"] ["A"; "Candy"; "Bar"]))
  = Spec.distinct_keys ["Variant SKU"; "Title"; "Title"]
  ∧ NoDup (keys (of_pairs (zip ["Variant SKU"; "Title"; "Title"]
                               ["A"; "Candy"; "Bar"])))
  ∧ (NoDup ["Variant SKU"; "Title"; "Title"] →
     keys (of_pairs (zip ["Variant SKU"; "Title"; "Title"] ["A"; "Candy"; "Bar"]))
     = ["Variant SKU"; "Title"; "Title"]).
Proof.
  apply (input_rows_share_keys
           [["Variant SKU"; "Title"; "Title"]; ["A"; "Candy"; "Bar"]; []]).
  - apply Forall_cons. split; [by right |].
    apply Forall_cons. split; [by left | apply Forall_nil_2].
  - left.
Defined.

Lemma limited_rows_subset (a : Generate.args) (f : csv_file) (r : row) :
  r ∈ Generate.limited_rows a f → r ∈ Generate.load_input_csv f.
Proof.
  unfold Generate.limited_rows, Generate.slice_to.
  destruct (Generate.arg_limit a) as [n|]; [|done].
  destruct (n =? 0)%Z; [done |].
  destruct (0 <=? n)%Z; intros H; by eapply subseteq_take.
Qed.

Lemma limited_rows_head (a : Generate.args) (f : csv_file) (r : row)
    (rest : list row) :
  Generate.limited_rows a f = r :: rest →
  ∃ rest', Generate.load_input_csv f = r :: rest'.
Proof.
  unfold Generate.limited_rows, Generate.slice_to.
  destruct (Generate.arg_limit a) as [n|]; [|by eexists].
  destruct (n =? 0)%Z; [by eexists |].
  destruct (Generate.load_input_csv f) as [|r0 rows]; [|].
  - destruct (0 <=? n)%Z; by rewrite take_nil.
  - destruct (0 <=? n)%Z.
    + destruct (Z.to_nat n); [done |]. intros [= -> _]. by eexists.
    + destruct (length (r0 :: rows) - Z.to_nat (- n)); [done |].
      intros [= -> _]. by eexists.
Qed.

Lemma output_fieldnames_NoDup (rows : list row) :
  (∀ r rest, rows = r :: rest → NoDup (keys r)) →
  NoDup (Generate.output_fieldnames rows).
Proof.
  intros H. unfold Generate.output_fieldnames.
  set (names := match rows with r :: _ => keys r | [] => [] end).
  assert (Hn : NoDup names).
  { unfold names. destruct rows as [|r rest]; [apply NoDup_nil_2 | by eapply H]. }
  assert (Hn' : NoDup (if contains names "new_description" then names
                       else names ++ ["new_description"])).
  { destruct (contains names "new_description") eqn:E; [done |].
    apply contains_false in E. apply NoDup_app. split; [done |].
    split; [|apply NoDup_singleton].
    intros x Hx Hx'. apply list_elem_of_singleton in Hx'. by subst. }
  destruct (contains _ "generation_status") eqn:E; [done |].
  apply contains_false in E. apply NoDup_app. split; [done |].
  split; [|apply NoDup_singleton].
  intros x Hx Hx'. apply list_elem_of_singleton in Hx'. by subst.
Qed.

Lemma main_fieldnames_NoDup (a : Generate.args) (f : csv_file) :
  NoDup (Generate.output_fieldnames (Generate.limited_rows a f)).
Proof.
  apply output_fieldnames_NoDup. intros r rest E.
  apply (DictReader_keys f). apply (limited_rows_subset a). rewrite E. by left.
Qed.

(** The header [main] computes has no repeated name, starts with the keys
    of the first input row in their order, and holds "new_description" and
    "generation_status", each added at the end only when the input does not
    already have it. *)
Theorem output_fieldnames_shape (a : Generate.args) (f : csv_file) :
  let rows := Generate.limited_rows a f in
  let first_keys := match rows with r :: _ => keys r | [] => [] end in
  let fieldnames := Generate.output_fieldnames rows in
  NoDup fieldnames
  ∧ "new_description" ∈ fieldnames
  ∧ "generation_status" ∈ fieldnames
  ∧ fieldnames
    = first_keys
      ++ (if contains first_keys "new_description" then []
          else ["new_description"])
      ++ (if contains first_keys "generation_status" then []
          else ["generation_status"]).
Proof.
  intros rows first_keys fieldnames.
  split; [apply main_fieldnames_NoDup |].
  split; [apply new_description_in_fieldnames |].
  split; [apply generation_status_in_fieldnames |].
  unfold fieldnames, Generate.output_fieldnames. fold first_keys.
  destruct (contains first_keys "new_description") eqn:E1.
  - rewrite app_nil_l. destruct (contains first_keys "generation_status");
      [by rewrite app_nil_r | done].
  - assert (E : contains (first_keys ++ ["new_description"]) "generation_status"
                = contains first_keys "generation_status").
    { unfold contains. rewrite existsb_app. simpl. by rewrite !orb_false_r. }
    rewrite E. destruct (contains first_keys "generation_status");
      [by rewrite app_nil_r | by rewrite <- app_assoc].
Qed.

(** *** The file a run writes, read back *)

Lemma filter_all {A} (P : A → Prop) `{∀ x, Decision (P x)} (l : list A) :
  Forall P l → filter P l = l.
Proof.
  induction 1 as [|x l Hx Hl IH]; [done |].
  rewrite filter_cons_True by done. by rewrite IH.
Qed.

Lemma read_written_row (fieldnames : list string) (r : row) :
  NoDup fieldnames →
  of_pairs (zip fieldnames (writerow fieldnames r))
  = (λ k, (k, get_default r k "")) <$> fieldnames.
Proof.
  intros H. unfold writerow. rewrite zip_fmap_r. apply of_pairs_NoDup.
  rewrite <- list_fmap_compose.
  rewrite (list_fmap_ext _ id fieldnames) by done.
  by rewrite list_fmap_id.
Qed.

Lemma DictReader_written (fieldnames : list string) (rows : list row) :
  fieldnames ≠ [] →
  DictReader (fieldnames :: (writerow fieldnames <$> rows))
  = (λ r, of_pairs (zip fieldnames (writerow fieldnames r))) <$> rows.
Proof.
  intros Hne. unfold DictReader.
  assert (E : filter (λ rec, rec ≠ []) (writerow fieldnames <$> rows)
              = writerow fieldnames <$> rows).
  { apply filter_all. apply Forall_fmap, Forall_forall. intros r _. simpl.
    intros H. apply (f_equal length) in H. rewrite writerow_length in H.
    by destruct fieldnames. }
  rewrite E, <- list_fmap_compose. done.
Qed.

(** *** Rows within the header *)

Lemma keys_set_elem (d : dict) (k v x : string) :
  x ∈ keys (set d k v) → x ∈ keys d ∨ x = k.
Proof.
  rewrite keys_set. destruct (contains (keys d) k); [by left |].
  rewrite elem_of_app, list_elem_of_singleton. tauto.
Qed.

Lemma augment_keys (g : Generate.generated) (r : row) (x : string) :
  x ∈ keys (Generate.augment g r) →
  x ∈ keys r ∨ x = "new_description" ∨ x = "generation_status".
Proof.
  intros H.
  assert (H' : ∃ d s, x ∈ keys (set (set r "new_description" d)
                                    "generation_status" s)).
  { destruct g; simpl in H; eauto. }
  destruct H' as (d & st & H').
  apply keys_set_elem in H' as [H' | ->]; [|by right; right].
  apply keys_set_elem in H' as [H' | ->]; [by left | by right; left].
Qed.

(** The rows of a rectangular input carry the keys of the first row, so
    their keys are in the header of the run. *)
Lemma row_keys_in_fieldnames (a : Generate.args) (f : csv_file) (r : row)
    (x : string) :
  Spec.rectangular f →
  r ∈ Generate.limited_rows a f →
  x ∈ keys r →
  x ∈ Generate.output_fieldnames (Generate.limited_rows a f).
Proof.
  intros Hrect Hr Hx.
  destruct (Generate.limited_rows a f) as [|r0 rest] eqn:E;
    [by apply elem_of_nil in Hr |].
  apply first_keys_in_fieldnames.
  assert (H0 : r0 ∈ Generate.load_input_csv f).
  { apply (limited_rows_subset a). rewrite E. by left. }
  assert (H1 : r ∈ Generate.load_input_csv f).
  { apply (limited_rows_subset a). by rewrite E. }
  destruct (input_rows_keys f r0 Hrect H0) as [E0 _].
  destruct (input_rows_keys f r Hrect H1) as [E1 _].
  by rewrite E0, <- E1.
Qed.

Lemma augment_fits_header (a : Generate.args) (f : csv_file)
    (g : Generate.generated) (r : row) :
  Spec.rectangular f →
  r ∈ Generate.limited_rows a f →
  let fieldnames := Generate.output_fieldnames (Generate.limited_rows a f) in
  Forall (λ x, x ∈ fieldnames) (keys (Generate.augment g r)).
Proof.
  intros Hrect Hr fieldnames. apply Forall_forall. intros x Hx.
  apply augment_keys in Hx as [Hx | [-> | ->]].
  - by apply (row_keys_in_fieldnames a f r).
  - apply new_description_in_fieldnames.
  - apply generation_status_in_fieldnames.
Qed.

Lemma writerow_any_fits (fieldnames : list string) (r : row) :
  Forall (λ x, x ∈ fieldnames) (keys r) ↔
  Csv.writerow_any fieldnames r = Some (writerow fieldnames r).
Proof.
  unfold Csv.writerow_any.
  destruct (forallb (contains fieldnames) (keys r)) eqn:E.
  - split; [done |]. intros _. apply Forall_forall. intros x Hx.
    rewrite forallb_forall in E. apply contains_elem_of, E.
    by apply list_elem_of_In.
  - split; [|done]. intros H. rewrite Forall_forall in H.
    assert (E' : forallb (contains fieldnames) (keys r) = true).
    { apply forallb_forall. intros x Hx. apply contains_elem_of, H.
      by apply list_elem_of_In. }
    congruence.
Qed.

(** On a rectangular input every row a run writes has its keys among the
    field names of the run's header: [csv.DictWriter] finds no extra key and
    raises for none of them, and the record written has one cell per
    field. *)
Theorem written_rows_fit_header (a : Generate.args) (f : csv_file)
    (completed_skus : gset string) (c : Generate.client) (r' : row) :
  Spec.rectangular f →
  let rows := Generate.limited_rows a f in
  let fieldnames := Generate.output_fieldnames rows in
  r' ∈ Spec.outputs completed_skus c (Generate.enumerate rows) →
  Forall (λ x, x ∈ fieldnames) (keys r')
  ∧ Csv.writerow_any fieldnames r' = Some (writerow fieldnames r')
  ∧ length (writerow fieldnames r') = length fieldnames.
Proof.
  intros Hrect rows fieldnames Hr'.
  apply elem_of_outputs in Hr' as (i & r & Hin & _ & ->).
  apply elem_of_enumerate, list_elem_of_lookup_2 in Hin.
  assert (H : Forall (λ x, x ∈ fieldnames)
                (keys (Generate.augment (Generate.generate_description c i r) r)))
    by (by apply augment_fits_header).
  split; [done |]. split; [by apply writerow_any_fits | apply writerow_length].
Qed.

Lemma written_rows_fit_header_witness :
  let r' := [("Variant SKU", "A"); ("Title", "Candy");
             ("new_description", "Sweet."); ("generation_status", "success")] in
  let fieldnames :=
    ["Variant SKU"; "Title"; "new_description"; "generation_status"] in
  Forall (λ x, x ∈ fieldnames) (keys r')
  ∧ Csv.writerow_any fieldnames r' = Some (writerow fieldnames r')
  ∧ length (writerow fieldnames r') = length fieldnames.
Proof.
  apply (written_rows_fit_header
           {| Generate.arg_limit := None; Generate.arg_resume := false |}
           [["Variant SKU"; "Title"]; ["A"; "Candy"]] ∅
           (λ _ _, Generate.Message ["Sweet."])).
  - rectangular_file.
  - vm_compute. left.
Defined.

(** Rows whose keys are all among the field names of a non-empty header
    without repeated names, appended with [append_rows] below the header
    [init_output_csv] writes: the writer raises for none of them, the file
    is rectangular, and reading it back gives the rows in the same order,
    each with every header field, the empty text where the row lacks the
    key. *)
Theorem write_read_round_trip (fieldnames : list string) (rows : list row) :
  fieldnames ≠ [] →
  NoDup fieldnames →
  Forall (λ r, Forall (λ x, x ∈ fieldnames) (keys r)) rows →
  ∃ file,
    Generate.append_rows (Generate.init_output_csv None fieldnames)
      fieldnames rows = Some file
    ∧ Forall (λ r, Csv.writerow_any fieldnames r = Some (writerow fieldnames r))
             rows
    ∧ Spec.rectangular file
    ∧ Csv.DictReader_any file = Spec.as_any_row <$> Generate.load_input_csv file
    ∧ Generate.load_input_csv file
      = (λ r, (λ k, (k, get_default r k "")) <$> fieldnames) <$> rows.
Proof.
  intros Hne Hnd Hkeys. eexists. split; [reflexivity |].
  cbn [Generate.init_output_csv default from_option id app].
  assert (Hrect : Spec.rectangular
                    (fieldnames :: (writerow fieldnames <$> rows))).
  { change (fieldnames :: (writerow fieldnames <$> rows))
      with (fieldnames :: [] ++ (writerow fieldnames <$> rows)).
    apply rectangular_append. apply Forall_nil_2. }
  split; [|split; [exact Hrect | split]].
  - eapply Forall_impl; [exact Hkeys |]. intros r Hr.
    by apply writerow_any_fits.
  - by apply DictReader_any_rectangular.
  - unfold Generate.load_input_csv. rewrite DictReader_written by done.
    apply list_fmap_ext. intros i r _. by apply read_written_row.
Qed.

Lemma write_read_round_trip_witness :
  ∃ file,
    Generate.append_rows
      (Generate.init_output_csv None ["Variant SKU"; "new_description"])
      ["Variant SKU"; "new_description"]
      [[("Variant SKU", "A")];
       [("new_description", "Sweet."); ("Variant SKU", "B")]]
    = Some file
    ∧ Generate.load_input_csv file
      = [[("Variant SKU", "A"); ("new_description", "")];
         [("Variant SKU", "B"); ("new_description", "Sweet.")]].
Proof.
  destruct (write_read_round_trip ["Variant SKU"; "new_description"]
              [[("Variant SKU", "A")];
               [("new_description", "Sweet."); ("Variant SKU", "B")]])
    as (file & Hf & _ & _ & _ & Hread).
  - discriminate.
  - apply NoDup_cons. split.
    + intros H. apply list_elem_of_singleton in H. discriminate.
    + apply NoDup_singleton.
  - repeat (apply Forall_cons; split);
      try apply Forall_nil_2; vm_compute; repeat constructor.
  - exists file. split; [exact Hf | exact Hread].
Defined.

(** The file a run without --resume leaves on an absent output path, given
    a rectangular input, is a well-formed table: a header without repeated
    names, and below it one record per processed row, each with exactly one
    cell per header field. *)
Theorem fresh_output_rectangular (limit : option Z) (api_key : string)
    (f : csv_file) (c : Generate.client) :
  api_key ≠ "" →
  Spec.rectangular f →
  ∃ st header records,
    Generate.main {| Generate.arg_limit := limit; Generate.arg_resume := false |}
      api_key (Some f) None c = Generate.Done st
    ∧ Generate.out st = Some (header :: records)
    ∧ NoDup header
    ∧ Spec.rectangular (header :: records)
    ∧ Forall (λ rec, length rec = length header) records
    ∧ length records = Generate.processed st + Generate.errors st.
Proof.
  intros Hk _.
  set (a := {| Generate.arg_limit := limit; Generate.arg_resume := false |}).
  destruct (main_file a api_key f None c Hk) as (st & Hm & Hf & _ & Hp & _).
  destruct (main_keeps_file a api_key f None c st Hk Hm) as [x Hx];
    [by eexists |].
  rewrite Hx in Hf. simpl in Hf. subst x.
  eexists st, _, _. split; [done |]. split; [exact Hx |].
  split; [apply main_fieldnames_NoDup |].
  assert (Hall : Forall (λ rec, length rec
                   = length (Generate.output_fieldnames (Generate.limited_rows a f)))
                   (writerow (Generate.output_fieldnames (Generate.limited_rows a f))
                      <$> Spec.outputs ∅ c
                            (Generate.enumerate (Generate.limited_rows a f)))).
  { apply Forall_fmap, Forall_forall. intros r _. apply writerow_length. }
  split; [|split; [done |]].
  - cbn [Spec.rectangular]. eapply Forall_impl; [exact Hall |]. intros rec H.
    by right.
  - by rewrite length_fmap.
Qed.

Lemma fresh_output_rectangular_witness :
  ∃ st header records,
    Generate.main {| Generate.arg_limit := None; Generate.arg_resume := false |}
      "sk-test" (Some [["Title"; "Variant SKU"]; ["Candy"; "A"]; ["Bar"; ""]])
      None (λ _ _, Generate.RaiseException "timeout")
    = Generate.Done st
    ∧ Generate.out st = Some (header :: records)
    ∧ NoDup header
    ∧ Spec.rectangular (header :: records)
    ∧ Forall (λ rec, length rec = length header) records
    ∧ length records = Generate.processed st + Generate.errors st.
Proof.
  apply (fresh_output_rectangular None "sk-test"
           [["Title"; "Variant SKU"]; ["Candy"; "A"]; ["Bar"; ""]]).
  - discriminate.
  - rectangular_file.
Defined.

Lemma read_back_sku (a : Generate.args) (f : csv_file) (g : Generate.generated)
    (r : row) :
  Spec.rectangular f →
  r ∈ Generate.limited_rows a f →
  let fieldnames := Generate.output_fieldnames (Generate.limited_rows a f) in
  get_default (of_pairs (zip fieldnames (writerow fieldnames (Generate.augment g r))))
    "Variant SKU" ""
  = get_or_empty r "Variant SKU".
Proof.
  intros Hrect Hr fieldnames. rewrite get_or_empty_default.
  destruct (decide ("Variant SKU" ∈ fieldnames)) as [Hin | Hout].
  - rewrite read_written by done. unfold get_default.
    by rewrite augment_other.
  - rewrite read_written_row by apply main_fieldnames_NoDup.
    unfold get_default at 1. rewrite get_not_key.
    + unfold get_default. rewrite get_not_key; [done |].
      intros Hk. apply Hout.
      destruct (Generate.limited_rows a f) as [|r0 rest] eqn:E;
        [by apply elem_of_nil in Hr |].
      unfold fieldnames. apply first_keys_in_fieldnames.
      assert (H0 : r0 ∈ Generate.load_input_csv f).
      { apply (limited_rows_subset a). rewrite E. by left. }
      assert (H1 : r ∈ Generate.load_input_csv f).
      { apply (limited_rows_subset a). by rewrite E. }
      destruct (input_rows_keys f r0 Hrect H0) as [E0 _].
      destruct (input_rows_keys f r Hrect H1) as [E1 _].
      by rewrite E0, <- E1.
    + unfold keys. rewrite <- list_fmap_compose.
      rewrite (list_fmap_ext _ id fieldnames) by done.
      by rewrite list_fmap_id.
Qed.

(** After a run without --resume on an absent output file and a rectangular
    input, the resume detector finds in the file the run leaves exactly the
    trimmed, non-empty SKUs of the rows whose generation returned a
    description that is not blank. *)
Theorem completed_after_fresh_run (limit : option Z) (api_key : string)
    (f : csv_file) (c : Generate.client) (k : string) :
  api_key ≠ "" →
  Spec.rectangular f →
  let a := {| Generate.arg_limit := limit; Generate.arg_resume := false |} in
  ∃ st, Generate.main a api_key (Some f) None c = Generate.Done st
    ∧ (k ∈ Generate.load_completed_skus (Generate.out st)
       ↔ ∃ i r d, Generate.limited_rows a f !! i = Some r
                  ∧ strip (get_or_empty r "Variant SKU") = k
                  ∧ k ≠ ""
                  ∧ Generate.generate_description c i r = Generate.Returned d
                  ∧ strip d ≠ "").
Proof.
  intros Hk Hrect a.
  destruct (main_file a api_key f None c Hk) as (st & Hm & Hf & _).
  destruct (main_keeps_file a api_key f None c st Hk Hm) as [x Hx];
    [by eexists |].
  rewrite Hx in Hf. simpl in Hf. subst x.
  exists st. split; [done |]. rewrite Hx, completed_iff.
  set (F := Generate.output_fieldnames (Generate.limited_rows a f)) in *.
  assert (HF : F ≠ []).
  { pose proof (new_description_in_fieldnames (Generate.limited_rows a f)) as H.
    fold F in H. intros E. rewrite E in H. by apply elem_of_nil in H. }
  rewrite DictReader_written by done.
  assert (Hdesc : ∀ g r,
            get_default (of_pairs (zip F (writerow F (Generate.augment g r))))
              "new_description" ""
            = match g with Generate.Returned d => d | _ => "" end).
  { intros g r. rewrite read_written by apply new_description_in_fieldnames.
    unfold get_default. by rewrite augment_description. }
  split.
  - intros (r2 & Hr2 & Hs & Hne & Hd).
    apply list_elem_of_fmap in Hr2 as (r' & -> & Hr').
    apply elem_of_outputs in Hr' as (i & r & Hin & _ & ->).
    apply elem_of_enumerate in Hin.
    rewrite Hdesc in Hd.
    rewrite (read_back_sku a f) in Hs;
      [|done | by eapply list_elem_of_lookup_2].
    destruct (Generate.generate_description c i r) as [d|e|e] eqn:Eg;
      [|done|done].
    by exists i, r, d.
  - intros (i & r & d & Hi & Hs & Hne & Hg & Hd).
    exists (of_pairs (zip F (writerow F
              (Generate.augment (Generate.generate_description c i r) r)))).
    split; [|split; [|split]].
    + apply (list_elem_of_fmap_2
               (λ r', of_pairs (zip F (writerow F r')))).
      apply elem_of_outputs. exists i, r. rewrite elem_of_enumerate.
      split; [done |]. split; [apply not_elem_of_empty | done].
    + rewrite (read_back_sku a f); [done | done |].
      by eapply list_elem_of_lookup_2.
    + done.
    + rewrite Hdesc, Hg. done.
Qed.

Lemma completed_after_fresh_run_witness :
  ∃ st,
    Generate.main {| Generate.arg_limit := None; Generate.arg_resume := false |}
      "sk-test"
      (Some [["Variant SKU"; "Title"]; [" A "; "Candy"]; ["B"; "Bar"]])
      None
      (λ i _, match i with
              | 0 => Generate.Message ["Sweet."]
              | _ => Generate.RaiseAPIError "overloaded"
              end)
    = Generate.Done st
    ∧ ("A" ∈ Generate.load_completed_skus (Generate.out st)
       ↔ ∃ i r d,
           Generate.limited_rows
             {| Generate.arg_limit := None; Generate.arg_resume := false |}
             [["Variant SKU"; "Title"]; [" A "; "Candy"]; ["B"; "Bar"]] !! i
           = Some r
           ∧ strip (get_or_empty r "Variant SKU") = "A"
           ∧ "A" ≠ ""
           ∧ Generate.generate_description
               (λ i _, match i with
                       | 0 => Generate.Message ["Sweet."]
                       | _ => Generate.RaiseAPIError "overloaded"
                       end) i r
             = Generate.Returned d
           ∧ strip d ≠ "").
Proof.
  apply (completed_after_fresh_run None "sk-test"
           [["Variant SKU"; "Title"]; [" A "; "Candy"]; ["B"; "Bar"]]).
  - discriminate.
  - apply Forall_cons. split; [by right |].
    apply Forall_cons. split; [by right | apply Forall_nil_2].
Defined.

(** *** Trimmed texts *)

Lemma lstrip_head (s : string) :
  lstrip s = "" ∨ ∃ x t, lstrip s = String x t ∧ isspace x = false.
Proof.
  induction s as [|x s IH]; [by left |].
  cbn [lstrip]. destruct (isspace x) eqn:E; [done |].
  right. by exists x, s.
Qed.

Lemma rstrip_idempotent (s : string) : rstrip (rstrip s) = rstrip s.
Proof.
  induction s as [|x s IH]; [done |].
  cbn [rstrip]. destruct (rstrip s) as [|y r] eqn:E.
  - destruct (isspace x) eqn:Ex; [done |]. cbn [rstrip]. by rewrite Ex.
  - cbn [rstrip] in IH |- *. by rewrite IH.
Qed.

Lemma rstrip_keeps_head (x : ascii) (t : string) :
  isspace x = false → ∃ t', rstrip (String x t) = String x t'.
Proof.
  intros Hx. cbn [rstrip]. destruct (rstrip t) as [|y r].
  - rewrite Hx. by eexists.
  - by eexists.
Qed.

Lemma strip_idempotent (s : string) : strip (strip s) = strip s.
Proof.
  unfold strip. destruct (lstrip_head s) as [E | (x & t & E & Hx)].
  - by rewrite E.
  - rewrite E. destruct (rstrip_keeps_head x t Hx) as [t' E'].
    rewrite E'. cbn [lstrip]. rewrite Hx. rewrite <- E'.
    apply rstrip_idempotent.
Qed.

(** A description that [generate_description] returns is trimmed: stripping
    it again changes nothing, and it is what the row gets as
    "new_description", so every "success" record carries a description
    without surrounding white space. *)
Theorem generated_description_trimmed (c : Generate.client) (i : nat) (r : row)
    (d : string) :
  Generate.generate_description c i r = Generate.Returned d →
  strip d = d
  ∧ get (Generate.augment (Generate.generate_description c i r) r)
      "new_description" = Some d.
Proof.
  intros Hg.
  assert (Hs : strip d = d).
  { unfold Generate.generate_description in Hg.
    destruct (c i (Generate.request_content r)) as [[|text rest] | e | e];
      try discriminate.
    injection Hg as <-. apply strip_idempotent. }
  split; [done |]. by rewrite Hg, augment_description.
Qed.

Lemma generated_description_trimmed_witness :
  strip "Sweet and sour." = "Sweet and sour."
  ∧ get (Generate.augment
           (Generate.generate_description
              (λ _ _, Generate.Message ["  Sweet and sour.  "; "ignored"]) 0
              [("Title", "Candy")])
           [("Title", "Candy")]) "new_description"
    = Some "Sweet and sour.".
Proof.
  apply (generated_description_trimmed
           (λ _ _, Generate.Message ["  Sweet and sour.  "; "ignored"]) 0
           [("Title", "Candy")] "Sweet and sour.").
  reflexivity.
Defined.

(** *** The media type of an image URL *)

Lemma lower_app (s t : string) : lower (s +:+ t) = lower s +:+ lower t.
Proof. induction s as [|x s IH]; [done |]. simpl. by rewrite IH. Qed.

Lemma lower_char_question (x : ascii) :
  Ascii.eqb (lower_char x) (chr 63) = Ascii.eqb x (chr 63).
Proof. by destruct x as [[] [] [] [] [] [] [] []]. Qed.

Lemma has_question_lower (s : string) :
  Spec.has_char (chr 63) (lower s) = Spec.has_char (chr 63) s.
Proof.
  induction s as [|x s IH]; [done |].
  cbn [lower Spec.has_char]. by rewrite lower_char_question, IH.
Qed.

Lemma split_before_sep (sep : ascii) (s t : string) :
  Spec.has_char sep s = false →
  split sep (s +:+ String sep t) = s :: split sep t.
Proof.
  induction s as [|x s IH]; intros H.
  - simpl. by rewrite Ascii.eqb_refl.
  - cbn [Spec.has_char] in H. apply orb_false_iff in H as [Hx Hs].
    simpl. rewrite Hx, IH by done. done.
Qed.

Lemma split_without_sep (sep : ascii) (s : string) :
  Spec.has_char sep s = false → split sep s = [s].
Proof.
  induction s as [|x s IH]; intros H; [done |].
  cbn [Spec.has_char] in H. apply orb_false_iff in H as [Hx Hs].
  simpl. rewrite Hx, IH by done. done.
Qed.

(** [get_image_media_type] ignores a query string: for a URL without a
    question mark, appending "?" and any query gives the same media type;
    and the type is always one of the four the function knows. *)
Theorem media_type_ignores_query (url query : string) :
  Spec.has_char (chr 63) url = false →
  Generate.get_image_media_type (url +:+ String (chr 63) query)
  = Generate.get_image_media_type url
  ∧ Generate.get_image_media_type url
    ∈ ["image/png"; "image/gif"; "image/webp"; "image/jpeg"].
Proof.
  intros H. split.
  - unfold Generate.get_image_media_type.
    change (String (chr 63) query) with (String (chr 63) "" +:+ query).
    rewrite !lower_app.
    change (lower (String (chr 63) "") +:+ lower query)
      with (String (chr 63) (lower query)).
    assert (Hl : Spec.has_char (chr 63) (lower url) = false)
      by (rewrite has_question_lower; exact H).
    rewrite (split_before_sep (chr 63) (lower url) (lower query) Hl).
    rewrite (split_without_sep (chr 63) (lower url) Hl).
    done.
  - unfold Generate.get_image_media_type.
    repeat (match goal with |- context [if ?b then _ else _] => destruct b end);
      set_solver.
Qed.

Lemma media_type_ignores_query_witness :
  Generate.get_image_media_type
    ("https://cdn.example.com/Candy.PNG" +:+ String (chr 63) "v=1&w=.gif")
  = Generate.get_image_media_type "https://cdn.example.com/Candy.PNG"
  ∧ Generate.get_image_media_type "https://cdn.example.com/Candy.PNG"
    ∈ ["image/png"; "image/gif"; "image/webp"; "image/jpeg"].
Proof.
  apply (media_type_ignores_query "https://cdn.example.com/Candy.PNG"
           "v=1&w=.gif").
  reflexivity.
Defined.

(* ===================================================================== *)
(** ** Further properties of the handle service                           *)
(* ===================================================================== *)

(** *** Lines and code fences *)

Lemma split_nonempty (sep : ascii) (s : string) : split sep s ≠ [].
Proof.
  destruct s as [|x s]; [done |]. simpl.
  destruct (Ascii.eqb x sep); [done |]. by destruct (split sep s).
Qed.

Lemma join_cons_char (sep : string) (x : ascii) (w : string) (ws : list string) :
  join sep (String x w :: ws) = String x (join sep (w :: ws)).
Proof. by destruct ws. Qed.

Lemma join_split (sep : ascii) (s : string) :
  join (String sep "") (split sep s) = s.
Proof.
  induction s as [|x s IH]; [done |]. simpl.
  destruct (Ascii.eqb x sep) eqn:E.
  - apply Ascii.eqb_eq in E. subst x.
    pose proof (split_nonempty sep s) as Hne.
    destruct (split sep s) as [|w ws]; [done |].
    change (join (String sep "") ("" :: w :: ws))
      with (String sep (join (String sep "") (w :: ws))).
    by rewrite IH.
  - pose proof (split_nonempty sep s) as Hne.
    destruct (split sep s) as [|w ws]; [done |].
    by rewrite join_cons_char, IH.
Qed.

Lemma split_join (sep : ascii) (lines : list string) :
  lines ≠ [] →
  Forall (λ l, Spec.has_char sep l = false) lines →
  split sep (join (String sep "") lines) = lines.
Proof.
  intros Hne H. induction H as [|l ls Hl Hls IH]; [done |].
  destruct ls as [|l' ls'].
  - simpl. by apply split_without_sep.
  - change (join (String sep "") (l :: l' :: ls'))
      with (l +:+ String sep (join (String sep "") (l' :: ls'))).
    rewrite split_before_sep by done. by rewrite IH.
Qed.

(** [str.split] and [str.join] as the service uses them are inverse to each
    other: joining the pieces of a text gives the text back, and splitting
    the join of lines that hold no separator gives the lines back. *)
Theorem split_join_inverse (sep : ascii) (s : string) (lines : list string) :
  join (String sep "") (split sep s) = s
  ∧ split sep s ≠ []
  ∧ (lines ≠ [] →
     Forall (λ l, Spec.has_char sep l = false) lines →
     split sep (join (String sep "") lines) = lines).
Proof.
  split; [apply join_split |]. split; [apply split_nonempty |].
  apply split_join.
Qed.

(** A reply wrapped in a fenced code block, with or without a language tag
    after the opening fence, is reduced to the lines between the fences,
    as long as none of them is itself a fence line; a reply that does not
    start with a fence is left as it is. *)
Theorem strip_fences_block (lang : string) (lines : list string) (text : string) :
  Spec.has_char (chr 10) lang = false →
  lines ≠ [] →
  Forall (λ l, Spec.has_char (chr 10) l = false ∧ strip l ≠ App.FENCE) lines →
  App.strip_fences (join nl ((App.FENCE +:+ lang) :: lines ++ [App.FENCE]))
  = join nl lines
  ∧ (startswith text App.FENCE = false → App.strip_fences text = text).
Proof.
  intros Hlang Hne Hlines. split.
  - unfold App.strip_fences.
    assert (Hstart : startswith
                       (join nl ((App.FENCE +:+ lang) :: lines ++ [App.FENCE]))
                       App.FENCE = true).
    { destruct lines as [|l ls]; [done |]. unfold startswith. simpl.
      match goal with |- String.prefix "" ?s = true => by destruct s end. }
    rewrite Hstart. unfold nl. rewrite split_join.
    + cbn [tail]. rewrite filter_app.
      rewrite filter_all by (eapply Forall_impl; [exact Hlines |]; by intros l []).
      assert (E : filter (λ l, strip l ≠ App.FENCE) [App.FENCE] = []).
      { rewrite filter_cons_False; [done |]. intros Hf. by apply Hf. }
      by rewrite E, app_nil_r.
    + done.
    + apply Forall_cons. split; [done |]. apply Forall_app. split.
      * eapply Forall_impl; [exact Hlines |]. by intros l [].
      * by apply Forall_singleton.
  - unfold App.strip_fences. by intros ->.
Qed.

Lemma strip_fences_block_witness :
  App.strip_fences
    (join nl ((App.FENCE +:+ "json")
              :: ["["; "  {}"; "]"] ++ [App.FENCE]))
  = join nl ["["; "  {}"; "]"]
  ∧ (startswith "[]" App.FENCE = false → App.strip_fences "[]" = "[]").
Proof.
  apply (strip_fences_block "json" ["["; "  {}"; "]"] "[]").
  - reflexivity.
  - discriminate.
  - repeat (apply Forall_cons; split; [split; [reflexivity | vm_compute; discriminate] |]).
    apply Forall_nil_2.
Defined.

(** *** POST /upload with a recognised header *)

Lemma find_first_in_seq (P : nat → bool) (a n col : nat) :
  a ≤ col < a + n →
  P col = true →
  (∀ col', a ≤ col' < col → P col' = false) →
  find P (seq a n) = Some col.
Proof.
  revert a. induction n as [|n IH]; intros a Hr Hp Hbefore; [lia |].
  cbn [seq find]. destruct (decide (a = col)) as [-> | Hne].
  - by rewrite Hp.
  - rewrite Hbefore by lia. apply IH; [lia | done |].
    intros col' Hc. apply Hbefore. lia.
Qed.

(** When row 1 holds a recognised header, the importer takes the first such
    column, treats row 1 as the header, and extracts the names from the
    rows below it. *)
Theorem upload_with_known_header (filename : string) (ws : App.worksheet)
    (col : nat) :
  endswith filename ".xlsx" || endswith filename ".xls" = true →
  1 ≤ col ≤ App.max_column ws →
  App.is_known_header ws col = true →
  (∀ col', 1 ≤ col' < col → App.is_known_header ws col' = false) →
  App.upload_file (Some (filename, ws))
  = App.UploadOk
      (omap (λ r, Spec.cell_name (App.cell ws r col))
            (seq 2 (App.max_row ws - 1)))
      col 1.
Proof.
  intros Hext Hcol Hk Hfirst. unfold App.upload_file. rewrite Hext. simpl.
  assert (E : App.find_product_col ws = Some col).
  { unfold App.find_product_col. apply find_first_in_seq; [lia | done | done]. }
  rewrite E. unfold App.extract_names. by rewrite extract_names_fold.
Qed.

Lemma upload_with_known_header_witness :
  App.upload_file
    (Some ("products.xls",
           Spec.sheet_of_rows
             [[App.CStr "SKU"; App.CStr " Product Name "; App.CStr "Title"];
              [App.CStr "A1"; App.CStr "Gummy Bears"; App.CStr "x"];
              [App.CStr "A2"; App.CNone; App.CStr "y"];
              [App.CStr "A3"; App.CStr " Sour Worms"; App.CStr "z"]]))
  = App.UploadOk ["Gummy Bears"; "Sour Worms"] 2 1.
Proof.
  apply (upload_with_known_header "products.xls"
           (Spec.sheet_of_rows
              [[App.CStr "SKU"; App.CStr " Product Name "; App.CStr "Title"];
               [App.CStr "A1"; App.CStr "Gummy Bears"; App.CStr "x"];
               [App.CStr "A2"; App.CNone; App.CStr "y"];
               [App.CStr "A3"; App.CStr " Sour Worms"; App.CStr "z"]]) 2).
  - reflexivity.
  - simpl. lia.
  - reflexivity.
  - intros col' Hc. assert (col' = 1) as -> by lia. reflexivity.
Defined.

Lemma omap_length_le {A B} (g : A → option B) (l : list A) :
  length (omap g l) ≤ length l.
Proof.
  induction l as [|x l IH]; [done |]. cbn [omap list_omap].
  destruct (g x); simpl; lia.
Qed.

Lemma cell_name_trimmed (v : App.cell_value) (n : string) :
  Spec.cell_name v = Some n → n ≠ "" ∧ strip n = n.
Proof.
  unfold Spec.cell_name.
  destruct (App.cell_truthy v); cbn [andb]; [|discriminate].
  destruct (truthy (strip (App.cell_str v))) eqn:E; [|discriminate].
  intros [= <-]. split; [by apply truthy_true | apply strip_idempotent].
Qed.

(** Whatever sheet is uploaded, every extracted name is non-empty and
    trimmed, there are at most as many names as rows below the header row,
    and the reported header row is 0 or 1. *)
Theorem upload_names_trimmed (filename : string) (ws : App.worksheet)
    (names : list string) (product_col header_row : nat) :
  App.upload_file (Some (filename, ws))
  = App.UploadOk names product_col header_row →
  Forall (λ n, n ≠ "" ∧ strip n = n) names
  ∧ length names ≤ App.max_row ws - header_row
  ∧ header_row ≤ 1
  ∧ 1 ≤ product_col.
Proof.
  unfold App.upload_file.
  destruct (negb _); [discriminate |].
  destruct (App.find_product_col ws) as [col|] eqn:Ef; intros [= <- <- <-].
  - unfold App.extract_names. rewrite extract_names_fold. simpl.
    split; [|split; [|split; [lia |]]].
    + apply Forall_forall. intros n Hn.
      apply list_elem_of_omap in Hn as (r & _ & Hn). by eapply cell_name_trimmed.
    + etransitivity; [apply omap_length_le |]. by rewrite length_seq.
    + unfold App.find_product_col in Ef. apply find_some in Ef as [Hin _].
      apply in_seq in Hin. lia.
  - unfold App.extract_names. rewrite extract_names_fold. simpl.
    split; [|split; [|split; [|lia]]].
    + apply Forall_forall. intros n Hn.
      apply list_elem_of_omap in Hn as (r & _ & Hn). by eapply cell_name_trimmed.
    + etransitivity; [apply omap_length_le |]. by rewrite length_seq.
    + unfold App.default_header_row.
      destruct (App.str_or_empty _) as [|x s]; [lia |].
      destruct (negb (isdigit x)); lia.
Qed.

Lemma upload_names_trimmed_witness :
  Forall (λ n, n ≠ "" ∧ strip n = n) ["1 Gummy Bears"; "Sour Worms"; "42"]
  ∧ length ["1 Gummy Bears"; "Sour Worms"; "42"]
    ≤ App.max_row
        (Spec.sheet_of_rows
           [[App.CStr "1 Gummy Bears"]; [App.CStr "  Sour Worms "];
            [App.CNone]; [App.CVal "42" true]]) - 0
  ∧ 0 ≤ 1
  ∧ 1 ≤ 1.
Proof.
  apply (upload_names_trimmed "names.xlsx"
           (Spec.sheet_of_rows
              [[App.CStr "1 Gummy Bears"]; [App.CStr "  Sour Worms "];
               [App.CNone]; [App.CVal "42" true]])).
  reflexivity.
Defined.

(** *** POST /download *)

Lemma append_results_complete (results : list dict) (rows : list (list string)) :
  Forall (λ r, is_Some (get r "product_name") ∧ is_Some (get r "handle")) results →
  App.append_results rows results
  = inr (rows ++ ((λ r, [get_default r "product_name" ""; get_default r "handle" ""])
                    <$> results)).
Proof.
  intros H. revert rows. induction H as [|r results [[p Hp] [h Hh]] _ IH];
    intros rows.
  - simpl. by rewrite app_nil_r.
  - cbn [App.append_results]. unfold App.entry_row. rewrite Hp, Hh.
    rewrite IH.
    assert (E : [get_default r "product_name" ""; get_default r "handle" ""]
                = [p; h]) by (unfold get_default; by rewrite Hp, Hh).
    by rewrite fmap_cons, E, <- app_assoc.
Qed.

Lemma max_list_bound (l : list nat) (x : nat) : x ∈ l → x ≤ foldr Nat.max 0 l.
Proof.
  induction l as [|y l IH]; [by intros H%elem_of_nil |].
  intros [-> | H]%elem_of_cons; simpl; [lia |]. specialize (IH H). lia.
Qed.

Lemma column_width_bounds (cells : list string) (cell : string) :
  cell ∈ cells →
  Nat.min (String.length cell + 2) 60 ≤ App.column_width cells
  ∧ App.column_width cells ≤ 60.
Proof.
  intros H. unfold App.column_width.
  assert (Hb : String.length cell ≤ foldr Nat.max 0 (String.length <$> cells)).
  { apply max_list_bound. by apply list_elem_of_fmap_2. }
  lia.
Qed.

(** When every entry has a "product_name" and a "handle", the download is
    a sheet with the fixed header row followed by one row per entry, in
    order; each column is at most 60 wide, at least as wide as its header
    plus 2, and wide enough for each of its cells plus 2 unless that
    exceeds 60. *)
Theorem download_file_sheet (results : list dict) :
  Forall (λ r, is_Some (get r "product_name") ∧ is_Some (get r "handle")) results →
  ∃ width_a width_b,
    App.download_file (Some results)
    = App.DownloadOk "shopify_handles.xlsx"
        {| App.sheet_title := "Shopify Handles";
           App.sheet_rows :=
             ["Product Name"; "Handle"]
             :: ((λ r, [get_default r "product_name" ""; get_default r "handle" ""])
                   <$> results);
           App.column_widths := [width_a; width_b] |}
    ∧ 14 ≤ width_a ≤ 60
    ∧ 8 ≤ width_b ≤ 60
    ∧ (∀ r, r ∈ results →
         Nat.min (String.length (get_default r "product_name" "") + 2) 60
         ≤ width_a
         ∧ Nat.min (String.length (get_default r "handle" "") + 2) 60 ≤ width_b).
Proof.
  intros H. unfold App.download_file. cbn [default from_option id].
  rewrite (append_results_complete results _ H). cbn [app fmap list_fmap].
  set (rows := ["Product Name"; "Handle"]
               :: ((λ r, [get_default r "product_name" ""; get_default r "handle" ""])
                     <$> results)).
  eexists _, _. split; [reflexivity |].
  assert (Ha : ∀ r, r ∈ results →
            get_default r "product_name" "" ∈ App.column rows 0).
  { intros r Hr. unfold App.column, rows. rewrite fmap_cons. right.
    rewrite <- list_fmap_compose.
    apply list_elem_of_fmap. exists r. by split. }
  assert (Hb : ∀ r, r ∈ results →
            get_default r "handle" "" ∈ App.column rows 1).
  { intros r Hr. unfold App.column, rows. rewrite fmap_cons. right.
    rewrite <- list_fmap_compose.
    apply list_elem_of_fmap. exists r. by split. }
  assert (Ha0 : "Product Name" ∈ App.column rows 0) by (by left).
  assert (Hb0 : "Handle" ∈ App.column rows 1) by (by left).
  pose proof (column_width_bounds _ _ Ha0) as [Hwa Hwa'].
  pose proof (column_width_bounds _ _ Hb0) as [Hwb Hwb'].
  change (String.length "Product Name") with 12 in Hwa.
  change (String.length "Handle") with 6 in Hwb.
  split; [lia |]. split; [lia |].
  intros r Hr. split.
  - apply column_width_bounds. by apply Ha.
  - apply column_width_bounds. by apply Hb.
Qed.

Lemma download_file_sheet_witness :
  ∃ width_a width_b,
    App.download_file
      (Some [[("handle", "mike-ike-mega-mix");
              ("product_name", "Mike & Ike Mega Mix 5lb")]])
    = App.DownloadOk "shopify_handles.xlsx"
        {| App.sheet_title := "Shopify Handles";
           App.sheet_rows :=
             ["Product Name"; "Handle"]
             :: ((λ r, [get_default r "product_name" ""; get_default r "handle" ""])
                   <$> [[("handle", "mike-ike-mega-mix");
                         ("product_name", "Mike & Ike Mega Mix 5lb")]]);
           App.column_widths := [width_a; width_b] |}
    ∧ 14 ≤ width_a ≤ 60
    ∧ 8 ≤ width_b ≤ 60
    ∧ (∀ r, r ∈ [[("handle", "mike-ike-mega-mix");
                  ("product_name", "Mike & Ike Mega Mix 5lb")]] →
         Nat.min (String.length (get_default r "product_name" "") + 2) 60
         ≤ width_a
         ∧ Nat.min (String.length (get_default r "handle" "") + 2) 60 ≤ width_b).
Proof.
  apply (download_file_sheet
           [[("handle", "mike-ike-mega-mix");
             ("product_name", "Mike & Ike Mega Mix 5lb")]]).
  apply Forall_cons. split; [split; by eexists | apply Forall_nil_2].
Defined.

(** The first entry that lacks "product_name" or "handle" makes the
    download fail with a [KeyError] for the key that is looked up first and
    missing; no workbook is produced, whatever follows. *)
Theorem download_file_key_error (before after : list dict) (r : dict) :
  Forall (λ r, is_Some (get r "product_name") ∧ is_Some (get r "handle")) before →
  get r "product_name" = None ∨ get r "handle" = None →
  App.download_file (Some (before ++ r :: after))
  = App.DownloadKeyError
      (match get r "product_name" with
       | None => "product_name"
       | Some _ => "handle"
       end).
Proof.
  intros Hb Hr. unfold App.download_file. cbn [default from_option id].
  generalize [["Product Name"; "Handle"]]. intros rows. revert rows.
  induction Hb as [|r0 before [[p Hp] [h Hh]] _ IH]; intros rows.
  - cbn [app App.append_results]. unfold App.entry_row.
    destruct (get r "product_name") as [p|]; [|done].
    destruct Hr as [Hr | Hr]; [done |]. by rewrite Hr.
  - cbn [app App.append_results]. unfold App.entry_row at 1.
    rewrite Hp, Hh. apply IH.
Qed.

Lemma download_file_key_error_witness :
  App.download_file
    (Some ([[("product_name", "Skittles"); ("handle", "skittles")]]
           ++ [("product_name", "Nerds")] :: [[("handle", "x")]]))
  = App.DownloadKeyError
      (match get [("product_name", "Nerds")] "product_name" with
       | None => "product_name"
       | Some _ => "handle"
       end).
Proof.
  apply (download_file_key_error
           [[("product_name", "Skittles"); ("handle", "skittles")]]
           [[("handle", "x")]] [("product_name", "Nerds")]).
  - apply Forall_cons. split; [split; by eexists | apply Forall_nil_2].
  - by right.
Defined.

(** *** Download, then upload *)

Lemma omap_seq_lookup {A B} (l : list A) (g : A → option B)
    (h : nat → option B) (a : nat) :
  (∀ i x, l !! i = Some x → h (a + i) = g x) →
  omap h (seq a (length l)) = omap g l.
Proof.
  revert a. induction l as [|x l IH]; intros a H; [done |].
  cbn [length seq omap list_omap].
  rewrite <- (H 0 x eq_refl), Nat.add_0_r.
  rewrite (IH (S a)); [done |].
  intros i y Hi. rewrite <- (H (S i) y Hi). f_equal. lia.
Qed.

Lemma cell_name_text (s : string) :
  Spec.cell_name (App.CStr s)
  = if truthy (strip s) then Some (strip s) else None.
Proof.
  unfold Spec.cell_name. cbn [App.cell_truthy App.cell_str].
  destruct s as [|x s]; [done |]. done.
Qed.

(** Uploading the sheet that a download produced gives the product names
    back: column 1 is chosen through its "Product Name" header, row 1 is
    the header row, and the names are the trimmed product names of the
    entries in order, without the blank ones. *)
Theorem download_upload_round_trip (results : list dict) :
  Forall (λ r, is_Some (get r "product_name") ∧ is_Some (get r "handle")) results →
  ∃ wb,
    App.download_file (Some results) = App.DownloadOk "shopify_handles.xlsx" wb
    ∧ App.upload_file (Some ("shopify_handles.xlsx", Spec.sheet_of_workbook wb))
      = App.UploadOk
          (omap (λ r, let name := strip (get_default r "product_name" "") in
                      if truthy name then Some name else None)
                results)
          1 1.
Proof.
  intros H. unfold App.download_file. cbn [default from_option id].
  rewrite (append_results_complete results _ H). cbn [app].
  eexists. split; [reflexivity |].
  unfold Spec.sheet_of_workbook. cbn [App.sheet_rows].
  set (entry := λ r : dict,
         [get_default r "product_name" ""; get_default r "handle" ""]).
  set (ws := Spec.sheet_of_rows _).
  assert (Hrows : App.max_row ws = S (length results)).
  { unfold ws, Spec.sheet_of_rows. cbn [App.max_row].
    rewrite length_fmap. cbn [length]. rewrite length_fmap. lia. }
  assert (Hcols : 1 ≤ App.max_column ws).
  { unfold ws, Spec.sheet_of_rows. cbn [App.max_column]. lia. }
  assert (Hfind : App.find_product_col ws = Some 1).
  { unfold App.find_product_col. apply find_first_in_seq; [lia | done | lia]. }
  unfold App.upload_file. cbn [negb orb].
  change (endswith "shopify_handles.xlsx" ".xlsx") with true. cbn [negb orb].
  rewrite Hfind. unfold App.extract_names. rewrite extract_names_fold.
  cbn [app]. rewrite Hrows.
  replace (S (length results) - 1) with (length results) by lia.
  f_equal. apply omap_seq_lookup. intros i r Hi.
  change (1 + 1 + i) with (S (S i)).
  assert (Hc : App.cell ws (S (S i)) 1
               = App.CStr (get_default r "product_name" "")).
  { unfold ws, Spec.sheet_of_rows. cbn [App.cell].
    rewrite list_lookup_fmap.
    change ((["Product Name"; "Handle"] :: (entry <$> results)) !! S i)
      with ((entry <$> results) !! i).
    rewrite list_lookup_fmap, Hi. reflexivity. }
  rewrite Hc. apply cell_name_text.
Qed.

Lemma download_upload_round_trip_witness :
  ∃ wb,
    App.download_file
      (Some [[("product_name", " Skittles "); ("handle", "skittles")];
             [("product_name", "  "); ("handle", "blank")];
             [("product_name", "Nerds"); ("handle", "nerds")]])
    = App.DownloadOk "shopify_handles.xlsx" wb
    ∧ App.upload_file (Some ("shopify_handles.xlsx", Spec.sheet_of_workbook wb))
      = App.UploadOk
          (omap (λ r, let name := strip (get_default r "product_name" "") in
                      if truthy name then Some name else None)
                [[("product_name", " Skittles "); ("handle", "skittles")];
                 [("product_name", "  "); ("handle", "blank")];
                 [("product_name", "Nerds"); ("handle", "nerds")]])
          1 1.
Proof.
  apply (download_upload_round_trip
           [[("product_name", " Skittles "); ("handle", "skittles")];
            [("product_name", "  "); ("handle", "blank")];
            [("product_name", "Nerds"); ("handle", "nerds")]]).
  repeat (apply Forall_cons; split; [split; by eexists |]).
  apply Forall_nil_2.
Defined.

(** *** The user message of POST /generate *)

Lemma append_assoc (a b c : string) : (a +:+ b) +:+ c = a +:+ (b +:+ c).
Proof.
  induction a as [|x a IH]; [done |].
  change (String x ((a +:+ b) +:+ c) = String x (a +:+ (b +:+ c))).
  by rewrite IH.
Qed.

Lemma append_empty_r (a : string) : a +:+ "" = a.
Proof.
  induction a as [|x a IH]; [done |].
  change (String x (a +:+ "") = String x a). by rewrite IH.
Qed.

Lemma has_char_app (c : ascii) (a b : string) :
  Spec.has_char c (a +:+ b) = Spec.has_char c a || Spec.has_char c b.
Proof.
  induction a as [|x a IH]; [done |].
  change (Ascii.eqb x c || Spec.has_char c (a +:+ b)
          = Ascii.eqb x c || Spec.has_char c a || Spec.has_char c b).
  by rewrite IH, orb_assoc.
Qed.

Lemma str_nat_one_line (j : nat) :
  Spec.has_char (chr 10) (PromptTemplate.str_nat j) = false.
Proof.
  unfold PromptTemplate.str_nat.
  assert (H : ∀ d, Spec.has_char (chr 10) (NilEmpty.string_of_uint d) = false)
    by (induction d; simpl; done).
  unfold NilZero.string_of_uint. destruct (Nat.to_uint j); try apply H. done.
Qed.

Lemma numbered_lines_fold (names : list string) (a : nat) (acc : string) :
  foldl (λ user_message jn,
           user_message +:+ PromptTemplate.str_nat jn.1 +:+ ". " +:+ jn.2 +:+ nl)
        acc (zip (seq a (length names)) names)
  = acc +:+ Spec.text_of_lines (Spec.numbered_from a names).
Proof.
  revert a acc. induction names as [|n names IH]; intros a acc.
  - simpl. by rewrite append_empty_r.
  - unfold Spec.numbered_from. cbn [length seq zip_with foldl fst snd].
    fold (Spec.numbered_from (S a) names).
    rewrite IH. cbn [Spec.text_of_lines].
    by rewrite !append_assoc.
Qed.

Lemma split_text_of_lines (lines : list string) (rest : string) :
  Forall (λ l, Spec.has_char (chr 10) l = false) lines →
  split (chr 10) (Spec.text_of_lines lines +:+ rest)
  = lines ++ split (chr 10) rest.
Proof.
  induction 1 as [|l lines Hl _ IH]; [done |].
  cbn [Spec.text_of_lines]. rewrite !append_assoc.
  change (nl +:+ (Spec.text_of_lines lines +:+ rest))
    with (String (chr 10) (Spec.text_of_lines lines +:+ rest)).
  rewrite split_before_sep by done. by rewrite IH.
Qed.

Lemma numbered_one_line (a : nat) (names : list string) :
  Forall (λ l, Spec.has_char (chr 10) l = false) names →
  Forall (λ l, Spec.has_char (chr 10) l = false) (Spec.numbered_from a names).
Proof.
  intros Hn. revert a. unfold Spec.numbered_from.
  induction Hn as [|n names Hn _ IH]; intros a; [done |].
  cbn [length seq zip_with]. apply Forall_cons. split; [|apply IH].
  rewrite !has_char_app, str_nat_one_line, Hn. done.
Qed.

(** The user message is made of lines: the fixed opening line, an empty
    line, then one line per product name, numbered from 1 in the order
    given, and, when handles are already in use, two empty lines and the
    line that lists them; this holds when no name or handle holds a line
    feed. *)
Theorem user_message_lines (names existing : list string) :
  Forall (λ l, Spec.has_char (chr 10) l = false) names →
  Forall (λ l, Spec.has_char (chr 10) l = false) existing →
  split (chr 10) (App.build_user_message names existing)
  = Spec.message_lines names existing
  ∧ length (Spec.numbered_from 1 names) = length names.
Proof.
  intros Hn He. split.
  - unfold App.build_user_message, App.numbered_lines, Spec.message_lines.
    rewrite numbered_lines_fold.
    pose proof (numbered_one_line 1 names Hn) as Hlines.
    set (intro := "Generate Shopify handles for these products:").
    assert (Hjoin : Spec.has_char (chr 10) (join ", " existing) = false).
    { clear -He. induction He as [|e existing He Hes IH]; [done |].
      destruct existing as [|e' existing']; [done |].
      change (join ", " (e :: e' :: existing'))
        with (e +:+ ", " +:+ join ", " (e' :: existing')).
      rewrite !has_char_app, He, IH. done. }
    destruct existing as [|e existing'].
    + change (intro +:+ nl +:+ nl +:+ "" +:+ Spec.text_of_lines (Spec.numbered_from 1 names))
        with (Spec.text_of_lines [intro; ""]
              +:+ Spec.text_of_lines (Spec.numbered_from 1 names)).
      rewrite <- (append_empty_r (Spec.text_of_lines (Spec.numbered_from 1 names))).
      rewrite split_text_of_lines by (repeat constructor).
      rewrite split_text_of_lines by done. done.
    + set (clause := "Already-used handles (must not duplicate): "
                     +:+ join ", " (e :: existing')) in *.
      change (intro +:+ nl +:+ nl +:+ "" +:+ Spec.text_of_lines (Spec.numbered_from 1 names))
        with (Spec.text_of_lines [intro; ""]
              +:+ Spec.text_of_lines (Spec.numbered_from 1 names)).
      rewrite !append_assoc.
      rewrite split_text_of_lines by (repeat constructor).
      rewrite split_text_of_lines by done.
      change (nl +:+ nl +:+ clause)
        with (String (chr 10) (String (chr 10) clause)).
      assert (Hc : Spec.has_char (chr 10) clause = false).
      { unfold clause. rewrite has_char_app, Hjoin. done. }
      cbn [split]. rewrite (split_without_sep (chr 10) clause Hc).
      reflexivity.
  - unfold Spec.numbered_from. rewrite length_zip_with, length_seq. lia.
Qed.

Lemma user_message_lines_witness :
  split (chr 10)
    (App.build_user_message ["Mike & Ike Mega Mix 5lb"; "Skittles"] ["nerds"])
  = Spec.message_lines ["Mike & Ike Mega Mix 5lb"; "Skittles"] ["nerds"]
  ∧ length (Spec.numbered_from 1 ["Mike & Ike Mega Mix 5lb"; "Skittles"])
    = length ["Mike & Ike Mega Mix 5lb"; "Skittles"].
Proof.
  apply (user_message_lines ["Mike & Ike Mega Mix 5lb"; "Skittles"] ["nerds"]).
  - repeat (apply Forall_cons; split; [reflexivity |]). apply Forall_nil_2.
  - repeat (apply Forall_cons; split; [reflexivity |]). apply Forall_nil_2.
Defined.
